(** * FileSentinel: the directory scan, the monitor loop and the configuration
      loader of [file_sentinel.py], embedded in Rocq.

    The Python program polls a directory tree and mails a notification when
    an interval passes without new files.  This development embeds

    - [get_new_files]: the scan over [Path.rglob("*")];
    - [monitor]: the sleep / scan / decide loop with its one mutable
      variable [last_check_time];
    - [create_default_config] and [read_config]: the configuration loader;
    - [EmailMessenger.send_log_file_with_message]: the message it builds and
      its conversation with the mail server (module [Email]);
    - [main]: the start of the program, up to its call of [monitor].

    Timestamps are Python floats that the program only compares and
    renders; they are integers (clock ticks) here.  Strings are
    [String.string]; the dictionary [new_files] is a [gmap string string],
    with its keys in insertion order beside it where the order shows (in
    the log entry that [json.dumps] renders). *)

From Stdlib Require Import ZArith String Ascii List Lia.
From stdpp Require Import base option list gmap strings pretty fin_maps.

Local Open Scope Z_scope.
Set Warnings "-register-all".

(** ** Exceptions and results *)

(** The exceptions that can cross the functions of the program. *)
Inductive exn : Type :=
| FileNotFoundError
| PermissionError
| IsADirectoryError
| JSONDecodeError
| OSError
| ValueError
| SMTPException.

Global Instance exn_eq_dec : EqDecision exn.
Proof. solve_decision. Defined.

(** A call either returns a value or raises. *)
Inductive result (A : Type) : Type :=
| Ok (a : A)
| Raise (e : exn).
Arguments Ok {A} a.
Arguments Raise {A} e.

Definition result_bind {A B} (r : result A) (k : A -> result B) : result B :=
  match r with
  | Ok a => k a
  | Raise e => Raise e
  end.

(** ** The directory tree *)

Module Fs.

(** What [S_ISREG] / [S_ISDIR] tell about a [st_mode]. *)
Inductive kind : Type := Regular | Directory | Other.

Global Instance kind_eq_dec : EqDecision kind.
Proof. solve_decision. Defined.

(** The two fields of [os.stat_result] the program looks at. *)
Record stat_result : Type := mk_stat { st_mode : kind; st_ctime : Z }.

(** A filesystem entry.  A directory lists its entries in [os.scandir]
    order.  A symbolic link records what [stat()] answers once the link is
    followed: [None] for a dangling link or a loop.  [Special] stands for
    sockets, fifos and device nodes. *)
Inductive node : Type :=
| File (ctime : Z)
| Dir (ctime : Z) (entries : list (string * node))
| Symlink (target : option stat_result)
| Special (ctime : Z).

(** [Path.stat()]: follows symbolic links; [None] when it raises [OSError]. *)
Definition stat (n : node) : option stat_result :=
  match n with
  | File c => Some (mk_stat Regular c)
  | Dir c _ => Some (mk_stat Directory c)
  | Symlink t => t
  | Special c => Some (mk_stat Other c)
  end.

(** [Path.is_file()]: [S_ISREG(self.stat().st_mode)], and [False] when
    [stat()] fails because the entry, or what a link points to, is not
    there.  It follows symbolic links.  Every entry of a [node] can be
    examined: an entry whose [stat()] fails otherwise (one below a
    directory that may not be searched, for which [is_file()] raises
    [PermissionError]) is not part of these trees. *)
Definition is_file (n : node) : bool :=
  match stat n with
  | Some st => bool_decide (st_mode st = Regular)
  | None => false
  end.

(** A path below the scanned root, as the list of its components. *)
Definition path : Type := list string.

(** [Path.rglob("*")] on a directory: every entry below it, at any depth.
    pathlib walks the directories in pre-order and lists the children of
    each; it descends into directories only, never through a symbolic
    link.  The root itself is not listed. *)
Fixpoint rglob_from (p : path) (n : node) : list (path * node) :=
  match n with
  | Dir _ entries =>
      map (fun e => (p ++ [fst e], snd e)) entries ++
      (fix descend (es : list (string * node)) : list (path * node) :=
         match es with
         | [] => []
         | (name, child) :: es' => rglob_from (p ++ [name]) child ++ descend es'
         end) entries
  | _ => []
  end.

Definition rglob (root : node) : list (path * node) := rglob_from [] root.

(** The entry a path denotes, walking real directories only; a directory
    resolves a name to its first entry of that name. *)
Fixpoint assoc (name : string) (es : list (string * node)) : option node :=
  match es with
  | [] => None
  | (k, child) :: es' => if decide (k = name) then Some child else assoc name es'
  end.

Fixpoint lookup_path (n : node) (p : path) : option node :=
  match p with
  | [] => Some n
  | name :: p' =>
      match n with
      | Dir _ entries =>
          match assoc name entries with
          | Some child => lookup_path child p'
          | None => None
          end
      | _ => None
      end
  end.

(** ** Well-formed trees *)

Definition slash : ascii := "/"%char.

Fixpoint slash_free (s : string) : bool :=
  match s with
  | EmptyString => true
  | String c s' => negb (Ascii.eqb c slash) && slash_free s'
  end.

Fixpoint distinct (names : list string) : bool :=
  match names with
  | [] => true
  | x :: xs => negb (bool_decide (x ∈ xs)) && distinct xs
  end.

(** No entry name contains the separator, and a directory does not hold two
    entries of one name. *)
Fixpoint wf (n : node) : bool :=
  match n with
  | Dir _ entries =>
      forallb (fun e => slash_free (fst e)) entries &&
      distinct (map fst entries) &&
      (fix all (es : list (string * node)) : bool :=
         match es with
         | [] => true
         | (_, child) :: es' => wf child && all es'
         end) entries
  | _ => true
  end.

(** ** Paths as strings *)

Definition ends_with_slash (s : string) : bool :=
  match rev (list_ascii_of_string s) with
  | c :: _ => Ascii.eqb c slash
  | [] => false
  end.

(** What [str(Path(root_dir) / ...)] puts before the components, for a
    [root_dir] spelled the way [str(Path(root_dir))] prints it: pathlib
    prints nothing for the current directory ["."], does not double the
    separator of an anchor such as ["/"], and otherwise joins with ["/"]. *)
Definition path_prefix (root_dir : string) : string :=
  if bool_decide (root_dir = ".") || bool_decide (root_dir = EmptyString)
  then EmptyString
  else if ends_with_slash root_dir then root_dir
  else root_dir +:+ "/".

(** [str(file)] for the entry at [p] below [Path(root_dir)]. *)
Definition path_str (root_dir : string) (p : path) : string :=
  path_prefix root_dir +:+ String.concat "/" p.

(** ** Auxiliary notions for reasoning about trees *)

(** Induction over a tree, with the hypothesis for every entry of a
  directory. *)
Section NodeInd.
Variable P : node -> Prop.
Hypothesis HFile : forall c, P (File c).
Hypothesis HDir : forall c es, Forall (fun e => P (snd e)) es -> P (Dir c es).
Hypothesis HSymlink : forall t, P (Symlink t).
Hypothesis HSpecial : forall c, P (Special c).

Fixpoint node_induction (n : node) : P n :=
  match n with
  | File c => HFile c
  | Dir c es =>
      HDir c es
        ((fix each (l : list (string * node)) : Forall (fun e => P (snd e)) l :=
            match l with
            | [] => @List.Forall_nil _ _
            | (k, child) :: l' =>
                @List.Forall_cons _ (fun e => P (snd e)) (k, child) l'
                  (node_induction child) (each l')
            end) es)
  | Symlink t => HSymlink t
  | Special c => HSpecial c
  end.
End NodeInd.

(** The two local loops of [rglob_from] and [wf], named. *)
Definition children (p : path) (es : list (string * node)) : list (path * node) :=
  map (fun e => (p ++ [fst e], snd e)) es.

Definition descend (p : path) (es : list (string * node)) : list (path * node) :=
  flat_map (fun e => rglob_from (p ++ [fst e]) (snd e)) es.

(** What can follow a component in a joined path. *)
Definition tail_ok (r : string) : Prop :=
  r = EmptyString \/ exists r', r = String slash r'.

Definition rest_of (l : list string) : string :=
  match l with
  | [] => EmptyString
  | _ :: _ => "/" +:+ String.concat "/" l
  end.

End Fs.

(** ** The scan *)

Section Scan.

(** [time.ctime]: the rendering of a timestamp in the local time zone. *)
Variable time_ctime : Z -> string.

(** One turn of the [for file in root_path.rglob("*")] loop. *)
Definition scan_entry (root_dir : string) (last_check_time : Z)
    (new_files : gmap string string) (entry : Fs.path * Fs.node)
    : result (gmap string string) :=
  let '(p, file) := entry in
  if Fs.is_file file then
    match Fs.stat file with
    | None => Raise OSError
    | Some st =>
        let creation_time := Fs.st_ctime st in
        if creation_time >? last_check_time then
          let creation_time_human_readable := time_ctime creation_time in
          Ok (<[Fs.path_str root_dir p := creation_time_human_readable]> new_files)
        else Ok new_files
    end
  else Ok new_files.

Fixpoint scan_entries (root_dir : string) (last_check_time : Z)
    (new_files : gmap string string) (entries : list (Fs.path * Fs.node))
    : result (gmap string string) :=
  match entries with
  | [] => Ok new_files
  | entry :: rest =>
      result_bind (scan_entry root_dir last_check_time new_files entry)
        (fun new_files' => scan_entries root_dir last_check_time new_files' rest)
  end.

(** [get_new_files(root_dir, last_check_time)], run on the tree [tree] that
    [root_dir] holds at the time of the call. *)
Definition get_new_files (root_dir : string) (tree : Fs.node)
    (last_check_time : Z) : result (gmap string string) :=
  scan_entries root_dir last_check_time ∅ (Fs.rglob tree).

End Scan.

(** The timestamp under which the scan reports an entry, if it reports it. *)
Definition reported (last_check_time : Z) (n : Fs.node) : option Z :=
  match Fs.stat n with
  | Some st =>
      if bool_decide (Fs.st_mode st = Fs.Regular) && (Fs.st_ctime st >? last_check_time)
      then Some (Fs.st_ctime st)
      else None
  | None => None
  end.

(** The entries [Path.is_file()] accepts, with the [st_ctime] that [stat()]
    reports for them: a regular file, or a symbolic link that resolves to a
    regular file (the timestamp is then the one of the link's target). *)
Inductive file_with_ctime : Fs.node -> Z -> Prop :=
| regular_file ct : file_with_ctime (Fs.File ct) ct
| link_to_regular_file ct :
    file_with_ctime (Fs.Symlink (Some (Fs.mk_stat Fs.Regular ct))) ct.

(** A scan result whose keys are exactly the regular files of the tree that
    are newer than the cutoff. *)
Definition keys_are_new_regular_files (root_dir : string) (tree : Fs.node)
    (cutoff : Z) (new_files : gmap string string) : Prop :=
  forall key,
    key ∈ dom new_files <->
    exists p ct,
      p <> [] /\ Fs.lookup_path tree p = Some (Fs.File ct) /\ cutoff < ct /\
      key = Fs.path_str root_dir p.

(** A scan result in which every entry of the tree that appears as a key is
    a regular file. *)
Definition only_regular_files_appear (root_dir : string) (tree : Fs.node)
    (new_files : gmap string string) : Prop :=
  forall p n,
    p <> [] -> Fs.lookup_path tree p = Some n ->
    Fs.path_str root_dir p ∈ dom new_files ->
    exists ct, n = Fs.File ct.

(** ** JSON values *)

(** What [json.load] returns and [json.dump] accepts.  A [dict] keeps its
    keys in insertion order, which is the order [json.dump] writes them in
    (no [sort_keys]). *)
Inductive jvalue : Type :=
| JNull
| JBool (b : bool)
| JInt (n : Z)
| JStr (s : string)
| JList (items : list jvalue)
| JDict (fields : list (string * jvalue)).

(** [d[key]] on a decoded object. *)
Fixpoint dict_get (key : string) (fields : list (string * jvalue)) : option jvalue :=
  match fields with
  | [] => None
  | (k, v) :: rest => if decide (k = key) then Some v else dict_get key rest
  end.

(** ** The dictionary [new_files] and its order

    A Python [dict] keeps its keys in the order in which they were first
    assigned, and [json.dumps] writes the items in that order.  The scan
    returns the mapping as a [gmap], which has no order of its own; the
    order of the keys is the one in which the loop of [get_new_files]
    assigns them. *)

(** [d[key] = ...], seen from the keys of [d]: a new key goes to the end, a
    key that is there keeps its place. *)
Definition assign_key (key : string) (keys : list string) : list string :=
  if bool_decide (key ∈ keys) then keys else keys ++ [key].

(** The keys that the loop of [get_new_files] has assigned, in order. *)
Fixpoint scan_keys (root_dir : string) (last_check_time : Z)
    (keys : list string) (entries : list (Fs.path * Fs.node)) : list string :=
  match entries with
  | [] => keys
  | (p, file) :: rest =>
      let keys' :=
        if Fs.is_file file then
          match Fs.stat file with
          | Some st =>
              if Fs.st_ctime st >? last_check_time
              then assign_key (Fs.path_str root_dir p) keys
              else keys
          | None => keys
          end
        else keys in
      scan_keys root_dir last_check_time keys' rest
  end.

(** The keys of [get_new_files(root_dir, last_check_time)] in insertion
    order. *)
Definition insertion_order (root_dir : string) (tree : Fs.node)
    (last_check_time : Z) : list string :=
  scan_keys root_dir last_check_time [] (Fs.rglob tree).

(** A [dict] of strings: its mapping, and its keys in insertion order. *)
Record pydict : Type := mk_pydict {
  mapping : gmap string string;
  key_order : list string;
}.

(** [list(d.items())] *)
Definition dict_items (d : pydict) : list (string * string) :=
  omap (fun key => (fun value => (key, value)) <$> mapping d !! key)
    (key_order d).

(** The [dict] of strings [new_files] as a JSON value, its items in
    insertion order. *)
Definition dict_of_map (d : pydict) : jvalue :=
  JDict (map (fun kv => (fst kv, JStr (snd kv))) (dict_items d)).

(** [len(d)] *)
Definition len (d : pydict) : Z := Z.of_nat (size (mapping d)).

(** ** Library functions

    The functions of the standard library whose results the program only
    passes on: [time.ctime], the rendering of a timestamp in the local time
    zone; [json.dumps(obj, indent=indent)]; and [json.loads], where [None]
    stands for a [JSONDecodeError]. *)
Record library : Type := mk_library {
  time_ctime : Z -> string;
  json_dumps : option nat -> jvalue -> string;
  json_loads : string -> option jvalue;
}.

(** ** The monitor loop *)

(** What the loop does to the world, in the order it does it. *)
Inductive event : Type :=
| EvTime (now : Z)
| EvSleep (seconds : Z)
| EvScan (cutoff : Z) (found : result (gmap string string))
| EvLogInfo (message : string)
| EvSend (message : string).

(** What the world answers: the successive readings of [time.time()], the
    tree below [root_dir] at each scan, and whether each call of the
    messenger returns ([None]) or raises. *)
Record env : Type := mk_env {
  clock : nat -> Z;
  tree_at : nat -> Fs.node;
  send_raises : nat -> option exn;
}.

(** The local variable of [monitor], the number of answers consumed from
    the world, and the events so far, oldest first. *)
Record state : Type := mk_state {
  last_check_time : Z;
  readings : nat;
  scans : nat;
  sends : nat;
  trace : list event;
}.

(** Computations that read and change the state and may raise. *)
Definition M (A : Type) : Type := state -> state * result A.

Definition ret {A} (a : A) : M A := fun s => (s, Ok a).

Definition bind {A B} (m : M A) (k : A -> M B) : M B :=
  fun s =>
    match m s with
    | (s', Ok a) => k a s'
    | (s', Raise e) => (s', Raise e)
    end.

Declare Scope py_scope.
Delimit Scope py_scope with py.
Notation "x <- m ;; k" := (bind m (fun x => k))
  (at level 100, m at next level, right associativity) : py_scope.
Notation "m ;;; k" := (bind m (fun _ => k))
  (at level 100, right associativity) : py_scope.

(** How a call of a function with a [while] loop can stand after a bounded
    number of turns: it has returned, it has raised, or it is still in the
    loop. *)
Inductive outcome : Type :=
| Returned
| Raised (e : exn)
| Running.

(** [while cond: body], for at most [fuel] turns. *)
Fixpoint py_while (fuel : nat) (cond : M bool) (body : M unit) (s : state)
    : state * outcome :=
  match fuel with
  | O => (s, Running)
  | S fuel' =>
      match cond s with
      | (s1, Raise e) => (s1, Raised e)
      | (s1, Ok false) => (s1, Returned)
      | (s1, Ok true) =>
          match body s1 with
          | (s2, Raise e) => (s2, Raised e)
          | (s2, Ok _) => py_while fuel' cond body s2
          end
      end
  end.

(** How a call stands once the loop body has run one more time. *)
Definition after_body (r : state * result unit) : state * outcome :=
  match r with
  | (s', Ok _) => (s', Running)
  | (s', Raise e) => (s', Raised e)
  end.

Section Monitor.

Variable lib : library.
Variable world : env.

Definition log (ev : event) (s : state) : list event := trace s ++ [ev].

(** [time.time()] *)
Definition time_time : M Z := fun s =>
  let now := clock world (readings s) in
  (mk_state (last_check_time s) (S (readings s)) (scans s) (sends s)
     (log (EvTime now) s), Ok now).

(** [time.sleep(seconds)]: a negative duration is refused.  Durations
    are taken within the range of the system clock (beyond some 292 years
    [time.sleep] raises [OverflowError] instead). *)
Definition time_sleep (seconds : Z) : M unit := fun s =>
  if seconds <? 0 then (s, Raise ValueError)
  else
    (mk_state (last_check_time s) (readings s) (scans s) (sends s)
       (log (EvSleep seconds) s), Ok tt).

(** [logging.info(message)] *)
Definition logging_info (message : string) : M unit := fun s =>
  (mk_state (last_check_time s) (readings s) (scans s) (sends s)
     (log (EvLogInfo message) s), Ok tt).

(** [messenger.send_log_file_with_message(message=message)] *)
Definition send_log_file_with_message (message : string) : M unit := fun s =>
  let s' := mk_state (last_check_time s) (readings s) (scans s) (S (sends s))
              (log (EvSend message) s) in
  match send_raises world (sends s) with
  | Some e => (s', Raise e)
  | None => (s', Ok tt)
  end.

(** The call [get_new_files(root_dir, last_check_time)] inside the loop: it
    reads the local variable and scans the tree as it is now.  The [dict]
    it returns holds the mapping found, its keys in the order of the
    scan. *)
Definition call_get_new_files (root_dir : string) : M pydict := fun s =>
  let tree := tree_at world (scans s) in
  let found := get_new_files (time_ctime lib) root_dir tree (last_check_time s) in
  (mk_state (last_check_time s) (readings s) (S (scans s)) (sends s)
     (log (EvScan (last_check_time s) found) s),
   result_bind found
     (fun mapping =>
        Ok (mk_pydict mapping
              (insertion_order root_dir tree (last_check_time s))))).

(** [last_check_time = now] *)
Definition assign_last_check_time (now : Z) : M unit := fun s =>
  (mk_state now (readings s) (scans s) (sends s) (trace s), Ok tt).

Definition no_new_files_message (time_interval : Z) : string :=
  "No new files were created in the last " +:+ pretty time_interval +:+ " minutes".

Definition new_files_message (new_files : pydict) : string :=
  "new files check, following files were created: " +:+
  json_dumps lib (Some 4%nat) (dict_of_map new_files).

(** The body of [while True:] in [monitor]. *)
Definition monitor_body (root_dir : string) (time_interval : Z) : M unit :=
  (time_sleep (time_interval * 60) ;;;
   new_files <- call_get_new_files root_dir ;;
   (if len new_files >? 0 then
      logging_info (new_files_message new_files)
    else
      (send_log_file_with_message (no_new_files_message time_interval) ;;;
       logging_info "new files check, no new files were created")) ;;;
   now <- time_time ;;
   assign_last_check_time now)%py.

(** [monitor(root_dir, time_interval, messenger)], followed for [fuel] turns
    of its loop. *)
Definition monitor (fuel : nat) (root_dir : string) (time_interval : Z)
    (s : state) : state * outcome :=
  match (now <- time_time ;; assign_last_check_time now)%py s with
  | (s0, Raise e) => (s0, Raised e)
  | (s0, Ok _) => py_while fuel (ret true) (monitor_body root_dir time_interval) s0
  end.

(** The state in which the loop is entered: [last_check_time] holds the
    first reading of the clock. *)
Definition started (s : state) : state :=
  mk_state (clock world (readings s)) (S (readings s)) (scans s) (sends s)
    (trace s ++ [EvTime (clock world (readings s))]).

(** The cutoff never decreases from one turn of the loop to a later one. *)
Definition cutoff_never_decreases (root_dir : string) (time_interval : Z)
    (s0 : state) : Prop :=
  forall i j si sj,
    (i <= j)%nat ->
    monitor i root_dir time_interval s0 = (si, Running) ->
    monitor j root_dir time_interval s0 = (sj, Running) ->
    last_check_time si <= last_check_time sj.

(** Of two successive turns, the second never reports again what the first
    reported, whatever happened to the file in between: the clock goes
    forward from one reading to the next and no timestamp met by a scan is
    ahead of the reading that closes its turn. *)
Definition next_turn_never_repeats (root_dir : string) (time_interval : Z)
    (s0 : state) : Prop :=
  (forall k, clock world k < clock world (S k)) ->
  forall fuel s s' first next,
    monitor fuel root_dir time_interval s0 = (s, Running) ->
    monitor (S fuel) root_dir time_interval s0 = (s', Running) ->
    (forall p n ct,
        Fs.lookup_path (tree_at world (scans s)) p = Some n ->
        file_with_ctime n ct -> ct <= clock world (readings s)) ->
    (forall p n ct,
        Fs.lookup_path (tree_at world (scans s')) p = Some n ->
        file_with_ctime n ct -> ct <= clock world (readings s')) ->
    get_new_files (time_ctime lib) root_dir (tree_at world (scans s))
      (last_check_time s) = Ok first ->
    get_new_files (time_ctime lib) root_dir (tree_at world (scans s'))
      (last_check_time s') = Ok next ->
    forall key, key ∈ dom first -> key ∉ dom next.

End Monitor.

(** ** The configuration loader *)

(** What a path holds for [open]: a text file, or something whose opening
    raises (a directory, a file without permission, a dangling link). *)
Inductive fentry : Type :=
| Text (content : string)
| Blocked (e : exn).

(** Where the program runs: [resolve] is the resolution [open] performs,
    from a path string to the file it denotes (relative paths against the
    current working directory, and whatever else the system identifies);
    [cwd] is [str(Path.cwd())] and [environ] is [os.environ]. *)
Record platform (K : Type) : Type := mk_platform {
  resolve : string -> K;
  cwd : string;
  environ : gmap string string;
}.
Arguments mk_platform {K} resolve cwd environ.
Arguments resolve {K} p path.
Arguments cwd {K} p.
Arguments environ {K} p.

Section Config.

Context {K : Type} `{Countable K}.
Variable lib : library.
Variable host : platform K.

(** [os.getenv(name, default)] *)
Definition getenv (name default : string) : string :=
  match environ host !! name with
  | Some v => v
  | None => default
  end.

(** [open(path, "r")] followed by [read()] *)
Definition open_read (files : gmap K fentry) (path : string) : result string :=
  match files !! resolve host path with
  | None => Raise FileNotFoundError
  | Some (Text content) => Ok content
  | Some (Blocked e) => Raise e
  end.

(** [open(path, "w")] followed by writing [content]: creates or truncates. *)
Definition open_write (files : gmap K fentry) (path content : string)
    : result (gmap K fentry) :=
  match files !! resolve host path with
  | Some (Blocked e) => Raise e
  | _ => Ok (<[resolve host path := Text content]> files)
  end.

(** [json.load(f)] *)
Definition json_load (content : string) : result jvalue :=
  match json_loads lib content with
  | Some v => Ok v
  | None => Raise JSONDecodeError
  end.

(** [working_directory / "config.json"] *)
Definition config_path : string := Fs.path_str (cwd host) ["config.json"].

(** The dictionary [config] of [create_default_config]. *)
Definition default_config : jvalue :=
  JDict
    [ ("directory_of_interest", JStr (cwd host));
      ("check_time_interval", JInt 15);
      ("log_file_location", JStr (Fs.path_str (cwd host) ["monitor.txt"]));
      ("email_receiver", JStr (getenv "LOGGER_EMAIL_RECEIVER" "reciever@gmail.com"));
      ("email_sender", JStr (getenv "LOGGER_EMAIL_SENDER" "sender@gmail.com"));
      ("email_password", JStr (getenv "LOGGER_EMAIL_PASSWORD" "default_password")) ].

(** What [json.dump(config, f, indent=4)] writes. *)
Definition default_text : string := json_dumps lib (Some 4%nat) default_config.

(** [create_default_config()]: the files afterwards and the path returned. *)
Definition create_default_config (files : gmap K fentry)
    : gmap K fentry * result string :=
  match open_write files config_path default_text with
  | Ok files' => (files', Ok config_path)
  | Raise e => (files, Raise e)
  end.

Definition config_not_found_message (path_to_config : string) : string :=
  "config file not found, creating default config file at " +:+ path_to_config.

(** [read_config(path_to_config)]: the files afterwards, the messages handed
    to [logging.info], and the configuration returned. *)
Definition read_config (files : gmap K fentry) (path_to_config : string)
    : gmap K fentry * list string * result jvalue :=
  match result_bind (open_read files path_to_config) json_load with
  | Raise FileNotFoundError =>
      let logged := [config_not_found_message path_to_config] in
      match create_default_config files with
      | (files', Ok path_to_default_config) =>
          (files', logged,
           result_bind (open_read files' path_to_default_config) json_load)
      | (files', Raise e) => (files', logged, Raise e)
      end
  | config => (files, [], config)
  end.

(** The default file can be written: nothing that refuses to be opened sits
    at [config.json] in the working directory. *)
Definition default_writable (files : gmap K fentry) : Prop :=
  forall e, files !! resolve host config_path <> Some (Blocked e).

(** [json.load] gives back the default configuration from what [json.dump]
    wrote for it. *)
Definition default_round_trips : Prop :=
  json_loads lib default_text = Some default_config.


End Config.

(** ** A small JSON codec

    An executable stand-in for the [json] module, with which the loader can
    be run on concrete files: [null], booleans, integers, strings, lists
    and objects.  Strings are escaped the way [json.dumps] does with its
    default [ensure_ascii=True], a character of a [string] standing for the
    code point of the same number; [\u] escapes above [00ff] are outside
    this model and refused.  It is used to run the examples only: numbers
    with a fraction or an exponent are refused, and an object that repeats
    a key keeps every occurrence, where [json] keeps the last. *)

Module MiniJson.

Definition dquote : ascii := ascii_of_nat 34.
Definition backslash : ascii := ascii_of_nat 92.
Definition newline : ascii := ascii_of_nat 10.
Definition space : ascii := ascii_of_nat 32.

Definition str1 (c : ascii) : string := String c EmptyString.

Definition hex_digit (n : nat) : ascii :=
  nth n (list_ascii_of_string "0123456789abcdef") "0"%char.

(** [ESCAPE_DCT] and the [\u{0:04x}] fallback of [json.encoder]. *)
Definition escape_char (c : ascii) : list ascii :=
  let n := nat_of_ascii c in
  if Ascii.eqb c dquote then [backslash; dquote]
  else if Ascii.eqb c backslash then [backslash; backslash]
  else if (n =? 8)%nat then [backslash; "b"%char]
  else if (n =? 12)%nat then [backslash; "f"%char]
  else if (n =? 10)%nat then [backslash; "n"%char]
  else if (n =? 13)%nat then [backslash; "r"%char]
  else if (n =? 9)%nat then [backslash; "t"%char]
  else if (32 <=? n)%nat && (n <=? 126)%nat then [c]
  else [backslash; "u"%char; "0"%char; "0"%char;
        hex_digit (n / 16); hex_digit (n mod 16)].

Fixpoint escape_chars (s : string) : list ascii :=
  match s with
  | EmptyString => []
  | String c s' => escape_char c ++ escape_chars s'
  end.

Definition escape (s : string) : string := string_of_list_ascii (escape_chars s).

Definition quote (s : string) : string :=
  String dquote (escape s +:+ str1 dquote).

Fixpoint spaces (n : nat) : string :=
  match n with
  | O => EmptyString
  | S n' => String space (spaces n')
  end.

(** The line break before an item at nesting depth [level]. *)
Definition break (indent : option nat) (level : nat) : string :=
  match indent with
  | Some n => String newline (spaces (n * level))
  | None => EmptyString
  end.

Definition item_sep (indent : option nat) (level : nat) : string :=
  match indent with
  | Some _ => "," +:+ break indent level
  | None => ", "
  end.

Fixpoint dumps_at (indent : option nat) (level : nat) (v : jvalue) : string :=
  match v with
  | JNull => "null"
  | JBool true => "true"
  | JBool false => "false"
  | JInt n => pretty n
  | JStr s => quote s
  | JList [] => "[]"
  | JList items =>
      "[" +:+ break indent (S level) +:+
      String.concat (item_sep indent (S level))
        ((fix each (l : list jvalue) : list string :=
            match l with
            | [] => []
            | x :: l' => dumps_at indent (S level) x :: each l'
            end) items) +:+
      break indent level +:+ "]"
  | JDict [] => "{}"
  | JDict fields =>
      "{" +:+ break indent (S level) +:+
      String.concat (item_sep indent (S level))
        ((fix each (l : list (string * jvalue)) : list string :=
            match l with
            | [] => []
            | (k, x) :: l' =>
                (quote k +:+ ": " +:+ dumps_at indent (S level) x) :: each l'
            end) fields) +:+
      break indent level +:+ "}"
  end.

Definition dumps (indent : option nat) (v : jvalue) : string :=
  dumps_at indent 0 v.

Definition is_ws (c : ascii) : bool :=
  Ascii.eqb c space || Ascii.eqb c newline ||
  Ascii.eqb c (ascii_of_nat 9) || Ascii.eqb c (ascii_of_nat 13).

Fixpoint skip_ws (cs : list ascii) : list ascii :=
  match cs with
  | c :: cs' => if is_ws c then skip_ws cs' else cs
  | [] => []
  end.

Definition hex_value (c : ascii) : option nat :=
  let n := nat_of_ascii c in
  if (48 <=? n)%nat && (n <=? 57)%nat then Some (n - 48)%nat
  else if (97 <=? n)%nat && (n <=? 102)%nat then Some (n - 87)%nat
  else if (65 <=? n)%nat && (n <=? 70)%nat then Some (n - 55)%nat
  else None.

(** The character that [\u] followed by four hexadecimal digits denotes. *)
Definition unicode_escape (h1 h2 h3 h4 : ascii) : option ascii :=
  match hex_value h1, hex_value h2, hex_value h3, hex_value h4 with
  | Some d1, Some d2, Some d3, Some d4 =>
      let n := (((d1 * 16 + d2) * 16 + d3) * 16 + d4)%nat in
      if (n <? 256)%nat then Some (ascii_of_nat n) else None
  | _, _, _, _ => None
  end.

(** The character that a backslash followed by [e] denotes. *)
Definition simple_escape (e : ascii) : option ascii :=
  if Ascii.eqb e dquote then Some dquote
  else if Ascii.eqb e backslash then Some backslash
  else if Ascii.eqb e "/"%char then Some "/"%char
  else if Ascii.eqb e "b"%char then Some (ascii_of_nat 8)
  else if Ascii.eqb e "f"%char then Some (ascii_of_nat 12)
  else if Ascii.eqb e "n"%char then Some newline
  else if Ascii.eqb e "r"%char then Some (ascii_of_nat 13)
  else if Ascii.eqb e "t"%char then Some (ascii_of_nat 9)
  else None.

(** The rest of a string literal, after its opening quote.  A control
    character inside a literal is refused, as [json.loads] does. *)
Fixpoint string_body (cs : list ascii) (acc : list ascii)
    : option (string * list ascii) :=
  match cs with
  | [] => None
  | c :: cs' =>
      if Ascii.eqb c dquote then Some (string_of_list_ascii (rev acc), cs')
      else if Ascii.eqb c backslash then
        match cs' with
        | e :: cs'' =>
            if Ascii.eqb e "u"%char then
              match cs'' with
              | h1 :: h2 :: h3 :: h4 :: cs3 =>
                  match unicode_escape h1 h2 h3 h4 with
                  | Some ch => string_body cs3 (ch :: acc)
                  | None => None
                  end
              | _ => None
              end
            else
              match simple_escape e with
              | Some ch => string_body cs'' (ch :: acc)
              | None => None
              end
        | [] => None
        end
      else if (nat_of_ascii c <? 32)%nat then None
      else string_body cs' (c :: acc)
  end.

Definition digit (c : ascii) : option Z :=
  let n := nat_of_ascii c in
  if (48 <=? n)%nat && (n <=? 57)%nat then Some (Z.of_nat (n - 48)) else None.

Fixpoint digits (cs : list ascii) (acc : Z) : Z * list ascii :=
  match cs with
  | c :: cs' =>
      match digit c with
      | Some d => digits cs' (10 * acc + d)
      | None => (acc, cs)
      end
  | [] => (acc, [])
  end.

Definition number (cs : list ascii) : option (Z * list ascii) :=
  match cs with
  | c :: cs' =>
      if Ascii.eqb c "-"%char then
        match cs' with
        | d :: _ =>
            match digit d with
            | Some _ => let '(n, rest) := digits cs' 0 in Some (- n, rest)
            | None => None
            end
        | [] => None
        end
      else
        match digit c with
        | Some _ => Some (digits cs 0)
        | None => None
        end
  | [] => None
  end.

Fixpoint strip_prefix (word cs : list ascii) : option (list ascii) :=
  match word, cs with
  | [], _ => Some cs
  | w :: word', c :: cs' => if Ascii.eqb w c then strip_prefix word' cs' else None
  | _ :: _, [] => None
  end.

Definition literal (word : string) (v : jvalue) (cs : list ascii)
    : option (jvalue * list ascii) :=
  match strip_prefix (list_ascii_of_string word) cs with
  | Some rest => Some (v, rest)
  | None => None
  end.

(** One JSON value at the head of [cs]; [fuel] bounds the nesting and the
    number of items. *)
Fixpoint value (fuel : nat) (cs : list ascii) : option (jvalue * list ascii) :=
  match fuel with
  | O => None
  | S fuel' =>
      match skip_ws cs with
      | [] => None
      | c :: cs' =>
          if Ascii.eqb c dquote then
            match string_body cs' [] with
            | Some (s, rest) => Some (JStr s, rest)
            | None => None
            end
          else if Ascii.eqb c "["%char then
            match skip_ws cs' with
            | d :: rest =>
                if Ascii.eqb d "]"%char then Some (JList [], rest)
                else
                  match items fuel' fuel' cs' with
                  | Some (l, rest') => Some (JList l, rest')
                  | None => None
                  end
            | [] => None
            end
          else if Ascii.eqb c "{"%char then
            match skip_ws cs' with
            | d :: rest =>
                if Ascii.eqb d "}"%char then Some (JDict [], rest)
                else
                  match members fuel' fuel' cs' with
                  | Some (l, rest') => Some (JDict l, rest')
                  | None => None
                  end
            | [] => None
            end
          else if Ascii.eqb c "n"%char then literal "null" JNull (c :: cs')
          else if Ascii.eqb c "t"%char then literal "true" (JBool true) (c :: cs')
          else if Ascii.eqb c "f"%char then literal "false" (JBool false) (c :: cs')
          else
            match number (c :: cs') with
            | Some (n, rest) => Some (JInt n, rest)
            | None => None
            end
      end
  end
with items (fuel count : nat) (cs : list ascii) : option (list jvalue * list ascii) :=
  match fuel, count with
  | S fuel', S count' =>
      match value fuel' cs with
      | Some (v, rest) =>
          match skip_ws rest with
          | d :: rest' =>
              if Ascii.eqb d "]"%char then Some ([v], rest')
              else if Ascii.eqb d ","%char then
                match items fuel' count' rest' with
                | Some (l, rest'') => Some (v :: l, rest'')
                | None => None
                end
              else None
          | [] => None
          end
      | None => None
      end
  | _, _ => None
  end
with members (fuel count : nat) (cs : list ascii)
    : option (list (string * jvalue) * list ascii) :=
  match fuel, count with
  | S fuel', S count' =>
      match skip_ws cs with
      | q :: cs1 =>
          if Ascii.eqb q dquote then
            match string_body cs1 [] with
            | Some (k, cs2) =>
                match skip_ws cs2 with
                | colon :: cs3 =>
                    if Ascii.eqb colon ":"%char then
                      match value fuel' cs3 with
                      | Some (v, rest) =>
                          match skip_ws rest with
                          | d :: rest' =>
                              if Ascii.eqb d "}"%char then Some ([(k, v)], rest')
                              else if Ascii.eqb d ","%char then
                                match members fuel' count' rest' with
                                | Some (l, rest'') => Some ((k, v) :: l, rest'')
                                | None => None
                                end
                              else None
                          | [] => None
                          end
                      | None => None
                      end
                    else None
                | [] => None
                end
            | None => None
            end
          else None
      | [] => None
      end
  | _, _ => None
  end.

(** [json.loads]: one value and nothing but white space after it. *)
Definition loads (text : string) : option jvalue :=
  let cs := list_ascii_of_string text in
  match value (S (length cs)) cs with
  | Some (v, rest) =>
      match skip_ws rest with
      | [] => Some v
      | _ :: _ => None
      end
  | None => None
  end.

End MiniJson.

(** ** Sample inputs *)

Module Sample.

(** A stand-in for [time.ctime]. *)
Definition render (t : Z) : string := "t=" +:+ pretty t.

(** A directory with a file, a subdirectory holding a file and a fifo, and
    three symbolic links: to a regular file, to nothing, to a directory. *)
Definition tree1 : Fs.node :=
  Fs.Dir 1
    [ ("a.txt", Fs.File 5);
      ("sub", Fs.Dir 2 [ ("b.txt", Fs.File 30); ("pipe", Fs.Special 40) ]);
      ("latest", Fs.Symlink (Some (Fs.mk_stat Fs.Regular 20)));
      ("dangling", Fs.Symlink None);
      ("dirlink", Fs.Symlink (Some (Fs.mk_stat Fs.Directory 50))) ].

(** A directory whose only entry is a link to a recent regular file. *)
Definition tree_link : Fs.node :=
  Fs.Dir 1 [ ("latest", Fs.Symlink (Some (Fs.mk_stat Fs.Regular 20))) ].

Definition empty_dir : Fs.node := Fs.Dir 1 [].

(** The monitored directory during the first turn of the loop and during
    the later ones: [c.txt] is created while the loop first sleeps, [d.txt]
    while it sleeps for the second time. *)
Definition tree_day1 : Fs.node :=
  Fs.Dir 1 [ ("a.txt", Fs.File 5); ("c.txt", Fs.File 105) ].

Definition tree_day2 : Fs.node :=
  Fs.Dir 1 [ ("a.txt", Fs.File 5); ("c.txt", Fs.File 105); ("d.txt", Fs.File 115) ].

(** A world whose clock advances, whose directory gains files and whose
    messenger works. *)
Definition world_calm : env :=
  mk_env (fun k => 100 + 10 * Z.of_nat k)
         (fun k => match k with O => tree_day1 | _ => tree_day2 end)
         (fun _ => None).

(** A world in which nothing is created and the messenger works. *)
Definition world_quiet : env :=
  mk_env (fun k => 100 + 10 * Z.of_nat k)
         (fun _ => empty_dir)
         (fun _ => None).

(** A world whose clock is set back after the loop has started. *)
Definition world_set_back : env :=
  mk_env (fun k => match k with O => 100 | _ => 50 end)
         (fun _ => empty_dir)
         (fun _ => None).

(** A directory that lists [b.txt] before [a.txt]. *)
Definition tree_unsorted : Fs.node :=
  Fs.Dir 1 [ ("b.txt", Fs.File 105); ("a.txt", Fs.File 106) ].

(** A world in which two files are created while the loop first sleeps. *)
Definition world_two_new : env :=
  mk_env (fun k => 100 + 10 * Z.of_nat k)
         (fun _ => tree_unsorted)
         (fun _ => None).

(** The monitored directory before and after [c.txt], created while the
    loop first sleeps, is written to while it sleeps for the second
    time: its [st_ctime] moves from 105 to 115. *)
Definition tree_written : Fs.node := Fs.Dir 1 [ ("c.txt", Fs.File 105) ].

Definition tree_rewritten : Fs.node := Fs.Dir 1 [ ("c.txt", Fs.File 115) ].

Definition world_touched : env :=
  mk_env (fun k => 100 + 10 * Z.of_nat k)
         (fun k => match k with O => tree_written | _ => tree_rewritten end)
         (fun _ => None).

(** A world in which nothing is created and the mail server refuses. *)
Definition world_smtp_down : env :=
  mk_env (fun k => 100 + 10 * Z.of_nat k)
         (fun _ => empty_dir)
         (fun _ => Some SMTPException).

(** Path resolution against a working directory, for paths written
    without [.] and [..]: an absolute path denotes itself. *)
Definition abspath (cwd path : string) : string :=
  match path with
  | String c _ => if Ascii.eqb c Fs.slash then path else Fs.path_str cwd [path]
  | EmptyString => cwd
  end.

(** The library functions, with the JSON codec above. *)
Definition lib : library := mk_library render MiniJson.dumps MiniJson.loads.

(** A process started in [/home/u] with no mail variable set. *)
Definition home : platform string := mk_platform (abspath "/home/u") "/home/u" ∅.

(** A home directory that already holds a configuration file. *)
Definition home_files : gmap string fentry :=
  {[ "/home/u/config.json" := Text "{}" ]}.

(** A home directory without a configuration file. *)
Definition other_files : gmap string fentry :=
  {[ "/home/u/notes.txt" := Text "notes" ]}.

(** The state in which [monitor] is called. *)
Definition s_init : state := mk_state 0 0 0 0 [].

End Sample.

(** ** Counting the events of a run *)

Definition is_sleep (ev : event) : bool :=
  match ev with EvSleep _ => true | _ => false end.

Definition is_log_info (ev : event) : bool :=
  match ev with EvLogInfo _ => true | _ => false end.

Definition is_send (ev : event) : bool :=
  match ev with EvSend _ => true | _ => false end.

(** A scan that found nothing. *)
Definition is_empty_scan (ev : event) : bool :=
  match ev with
  | EvScan _ (Ok found) => bool_decide (found = ∅)
  | _ => false
  end.

Definition count_events (f : event -> bool) (evs : list event) : nat :=
  length (List.filter f evs).

(** ** More sample inputs *)

Module MoreSamples.

(** The monitored directory before and after [late.txt] is created. *)
Definition tree_before : Fs.node := Fs.Dir 1 [ ("a.txt", Fs.File 5) ].

Definition tree_after : Fs.node :=
  Fs.Dir 1 [ ("a.txt", Fs.File 5); ("late.txt", Fs.File 108) ].

(** A world in which [late.txt] is created during the first turn of the
    loop, after the scan of that turn and before the turn reads the clock
    (110). *)
Definition world_late : env :=
  mk_env (fun k => 100 + 10 * Z.of_nat k)
         (fun k => match k with O => tree_before | _ => tree_after end)
         (fun _ => None).

(** Two directories that hold the same files, listed in another order, the
    second with an empty subdirectory besides. *)
Definition listing1 : Fs.node :=
  Fs.Dir 1 [ ("a.txt", Fs.File 5); ("b.txt", Fs.File 30) ].

Definition listing2 : Fs.node :=
  Fs.Dir 9 [ ("b.txt", Fs.File 30); ("cache", Fs.Dir 3 []); ("a.txt", Fs.File 5) ].

End MoreSamples.

(** ** The mail messenger

    [EmailMessenger] builds a MIME message with the log file attached and
    hands it to the SMTP server of the mail provider.  The message is kept
    as the program builds it: the headers it sets and the parts it
    attaches, in order.  The conversation with the server is a list of
    events; whether a step of it raises is the server's answer. *)

Module Email.

(** The attributes [__init__] stores, in the order of its parameters. *)
Record messenger : Type := EmailMessenger {
  log_file_location : string;
  receiver_email : string;
  sender_email : string;
  password : string;
}.

(** A part of a message: the type given to its constructor, the headers
    set on it and its payload. *)
Record part : Type := mk_part {
  maintype : string;
  subtype : string;
  part_headers : list (string * string);
  payload : string;
}.

(** A multipart message: the headers set on it and the parts attached. *)
Record message : Type := mk_message {
  headers : list (string * string);
  parts : list part;
}.

(** [MIMEMultipart()] *)
Definition MIMEMultipart : message := mk_message [] [].

(** [msg[name] = value]: a header is added after the ones already set. *)
Definition set_header (name value : string) (msg : message) : message :=
  mk_message (headers msg ++ [(name, value)]) (parts msg).

(** [msg.attach(p)] *)
Definition attach (p : part) (msg : message) : message :=
  mk_message (headers msg) (parts msg ++ [p]).

(** [MIMEText(text, subtype)] *)
Definition MIMEText (text subtype : string) : part :=
  mk_part "text" subtype [] text.

(** [MIMEBase(maintype, subtype)] *)
Definition MIMEBase (maintype subtype : string) : part :=
  mk_part maintype subtype [] EmptyString.

(** [p.set_payload(data)] *)
Definition set_payload (data : string) (p : part) : part :=
  mk_part (maintype p) (subtype p) (part_headers p) data.

(** [p.add_header(name, value)] *)
Definition add_header (name value : string) (p : part) : part :=
  mk_part (maintype p) (subtype p) (part_headers p ++ [(name, value)]) (payload p).

(** The components of a path string, split at every separator. *)
Fixpoint split_slash (current : string) (s : string) : list string :=
  match s with
  | EmptyString => [current]
  | String c s' =>
      if Ascii.eqb c Fs.slash then current :: split_slash EmptyString s'
      else split_slash (current +:+ String c EmptyString) s'
  end.

(** [Path(path).name]: the last component, pathlib having dropped the
    empty components and the [.] ones; empty when there is none. *)
Definition name (path : string) : string :=
  List.last
    (List.filter
       (fun component =>
          negb (String.eqb component EmptyString) && negb (String.eqb component "."))
       (split_slash EmptyString path))
    EmptyString.

Definition quote_mark : string := String (ascii_of_nat 34) EmptyString.

(** The f-string of the [Content-Disposition] header. *)
Definition disposition (path : string) : string :=
  "attachment; filename=" +:+ quote_mark +:+ name path +:+ quote_mark.

(** What the program does with the server. *)
Inductive smtp_event : Type :=
| Connect (host : string) (port : Z)
| StartTls
| Login (user secret : string)
| SendMessage (msg : message)
| Quit.

(** The answers of the server during one connection: for each step, the
    exception it raises, if any. *)
Record server : Type := mk_server {
  connect_raises : option exn;
  starttls_raises : option exn;
  login_raises : option exn;
  send_message_raises : option exn;
  quit_raises : option exn;
}.

(** Steps of a conversation: they extend the list of events and may
    raise. *)
Definition conversation (A : Type) : Type :=
  list smtp_event -> list smtp_event * result A.

Definition and_then {A} (first : conversation unit) (next : conversation A)
    : conversation A :=
  fun events =>
    match first events with
    | (events', Ok _) => next events'
    | (events', Raise e) => (events', Raise e)
    end.

Definition step (ev : smtp_event) (raises : option exn) : conversation unit :=
  fun events =>
    (events ++ [ev],
     match raises with
     | Some e => Raise e
     | None => Ok tt
     end).

Section Send.

Context {K : Type} `{Countable K}.

(** [encoders.encode_base64] relies on [base64.encodebytes]. *)
Variable b64encode : string -> string.

Variable host : platform K.
Variable files : gmap K fentry.
Variable smtp : server.

(** [encoders.encode_base64(p)]: the payload is replaced by its encoding
    and the transfer encoding declared. *)
Definition encode_base64 (p : part) : part :=
  mk_part (maintype p) (subtype p)
    (part_headers p ++ [("Content-Transfer-Encoding", "base64")])
    (b64encode (payload p)).

(** [with smtplib.SMTP(host, port) as server: body].  The constructor
    connects; when it raises, nothing else happens.  Otherwise the body
    runs and, whether it raised or not, [__exit__] sends [QUIT] and closes
    the connection; an exception raised there replaces the one of the
    body. *)
Definition with_SMTP (server_host : string) (port : Z)
    (body : conversation unit) : conversation unit :=
  fun events =>
    match step (Connect server_host port) (connect_raises smtp) events with
    | (events1, Raise e) => (events1, Raise e)
    | (events1, Ok _) =>
        let '(events2, r) := body events1 in
        match step Quit (quit_raises smtp) events2 with
        | (events3, Raise e) => (events3, Raise e)
        | (events3, Ok _) => (events3, r)
        end
    end.

(** The message as it stands before the attachment is read. *)
Definition message_head (self : messenger) (text : string) : message :=
  let msg := MIMEMultipart in
  let msg := set_header "From" (sender_email self) msg in
  let msg := set_header "To" (receiver_email self) msg in
  let msg := set_header "Subject" "Log File Notification" msg in
  attach (MIMEText text "plain") msg.

(** The part built from the content of the log file. *)
Definition attachment_part (self : messenger) (content : string) : part :=
  let p := MIMEBase "application" "octet-stream" in
  let p := set_payload content p in
  let p := encode_base64 p in
  add_header "Content-Disposition" (disposition (log_file_location self)) p.

(** [EmailMessenger.send_log_file_with_message(self, message)]: the
    conversation with the server and the outcome of the call.  The log
    file is opened with [open(..., "rb")] and read whole. *)
Definition send_log_file_with_message (self : messenger) (text : string)
    : list smtp_event * result unit :=
  let msg := message_head self text in
  match open_read host files (log_file_location self) with
  | Raise e => ([], Raise e)
  | Ok content =>
      let msg := attach (attachment_part self content) msg in
      with_SMTP "smtp.gmail.com" 587
        (and_then (step StartTls (starttls_raises smtp))
           (and_then (step (Login (sender_email self) (password self))
                     (login_raises smtp))
              (step (SendMessage msg) (send_message_raises smtp))))
        []
  end.

End Send.

End Email.

(** ** The entry point

    [main] reads the configuration, points [logging] at the log file,
    builds the messenger and calls [monitor].  It subscripts whatever
    [read_config] returned, so its own failures are those of a subscript. *)

(** The exceptions that can leave [main] before [monitor] is called: those
    of the functions it calls, and those of [config[key]]. *)
Inductive error : Type :=
| Exn (e : exn)
| KeyError (key : string)
| TypeError.

Inductive attempt (A : Type) : Type :=
| Done (a : A)
| Failed (e : error).
Arguments Done {A} a.
Arguments Failed {A} e.

(** [config[key]], [key] a string: a [dict] answers or raises [KeyError];
    nothing else that [json.load] returns takes a string subscript. *)
Definition subscript (config : jvalue) (key : string) : attempt jvalue :=
  match config with
  | JDict fields =>
      match dict_get key fields with
      | Some v => Done v
      | None => Failed (KeyError key)
      end
  | _ => Failed TypeError
  end.

(** [bool(v)] *)
Definition truthy (v : jvalue) : bool :=
  match v with
  | JNull => false
  | JBool b => b
  | JInt n => negb (n =? 0)
  | JStr s => negb (String.eqb s EmptyString)
  | JList items => negb (Nat.eqb (length items) 0)
  | JDict fields => negb (Nat.eqb (length fields) 0)
  end.

Module Logging.

(** Where the root logger sends its records: the console ([sys.stderr])
    or a file opened for appending. *)
Inductive handler : Type :=
| StreamHandler
| FileHandler (filename : string).

(** The root logger: its level, its handlers, and the messages its
    handlers were given so far, oldest first.  What a [FileHandler] was
    given is what it appends to its file; the content of the log file is
    followed here, not in the files. *)
Record root_logger : Type := mk_root {
  level : Z;
  handlers : list handler;
  emitted : list (handler * string);
}.

Definition INFO : Z := 20.
Definition WARNING : Z := 30.

(** The root logger of a fresh interpreter: [RootLogger(WARNING)], no
    handler. *)
Definition initial : root_logger := mk_root WARNING [] [].

(** [logging.info(message)]: a root logger without handler is first given
    a console handler ([basicConfig()], which leaves the level alone); the
    record is then handed to the handlers if the level lets it pass. *)
Definition info (message : string) (root : root_logger) : root_logger :=
  let root :=
    match handlers root with
    | [] => mk_root (level root) [StreamHandler] (emitted root)
    | _ :: _ => root
    end in
  if level root <=? INFO then
    mk_root (level root) (handlers root)
      (emitted root ++ map (fun h => (h, message)) (handlers root))
  else root.

Section BasicConfig.

Context {K : Type} `{Countable K}.
Variable host : platform K.

(** [logging.basicConfig(level=logging.INFO, format=..., filename=filename,
    filemode="a", force=True)].  The handlers in place are removed.  A
    [filename] that is false selects the console; any other is handed to
    [FileHandler], which wants a string and opens the file for appending,
    creating it when it is missing.  The level is set once the handler is
    in place. *)
Definition basicConfig (filename : jvalue) (files : gmap K fentry)
    (root : root_logger) : gmap K fentry * root_logger * attempt unit :=
  let removed := mk_root (level root) [] (emitted root) in
  if truthy filename then
    match filename with
    | JStr path =>
        match files !! resolve host path with
        | Some (Blocked e) => (files, removed, Failed (Exn e))
        | Some (Text _) =>
            (files, mk_root INFO [FileHandler path] (emitted root), Done tt)
        | None =>
            (<[resolve host path := Text EmptyString]> files,
             mk_root INFO [FileHandler path] (emitted root), Done tt)
        end
    | _ => (files, removed, Failed TypeError)
    end
  else (files, mk_root INFO [StreamHandler] (emitted root), Done tt).

End BasicConfig.

End Logging.

(** The call [monitor(root_dir=..., time_interval=..., messenger=emailer)]
    that ends [main], with the attributes of the messenger in the order of
    [EmailMessenger.__init__]. *)
Record monitor_call : Type := mk_call {
  call_root_dir : jvalue;
  call_time_interval : jvalue;
  call_log_file_location : jvalue;
  call_receiver_email : jvalue;
  call_sender_email : jvalue;
  call_password : jvalue;
}.

Section Main.

Context {K : Type} `{Countable K}.
Variable lib : library.
Variable host : platform K.

Definition read_config_message (config : jvalue) : string :=
  "read config, running with following parameters: " +:+
  json_dumps lib (Some 4%nat) config.

(** The statements of [main] that follow [logging.basicConfig]: the log
    entry, the arguments of [EmailMessenger] and those of [monitor], each
    subscript in the order Python evaluates it. *)
Definition prepare_call (config : jvalue) (root : Logging.root_logger)
    : Logging.root_logger * attempt monitor_call :=
  let root := Logging.info (read_config_message config) root in
  (root,
   match subscript config "log_file_location" with
   | Failed e => Failed e
   | Done log_file_location =>
   match subscript config "email_receiver" with
   | Failed e => Failed e
   | Done receiver_email =>
   match subscript config "email_sender" with
   | Failed e => Failed e
   | Done sender_email =>
   match subscript config "email_password" with
   | Failed e => Failed e
   | Done password =>
   match subscript config "directory_of_interest" with
   | Failed e => Failed e
   | Done root_dir =>
   match subscript config "check_time_interval" with
   | Failed e => Failed e
   | Done time_interval =>
       Done (mk_call root_dir time_interval log_file_location receiver_email
               sender_email password)
   end end end end end end).

(** [main()], up to the call of [monitor] it ends with: the files and the
    root logger at that point, and the call made, or the exception that
    left [main] before. *)
Definition main (files : gmap K fentry)
    : gmap K fentry * Logging.root_logger * attempt monitor_call :=
  let '(files, logged, config) := read_config lib host files "config.json" in
  let root := fold_left (fun root message => Logging.info message root) logged
                Logging.initial in
  match config with
  | Raise e => (files, root, Failed (Exn e))
  | Ok config =>
      match subscript config "log_file_location" with
      | Failed e => (files, root, Failed e)
      | Done filename =>
          match Logging.basicConfig host filename files root with
          | (files, root, Failed e) => (files, root, Failed e)
          | (files, root, Done _) =>
              let '(root, call) := prepare_call config root in
              (files, root, call)
          end
      end
  end.

(** The keys [main] subscripts, in the order it first asks for them. *)
Definition keys_of_main : list string :=
  [ "log_file_location"; "email_receiver"; "email_sender"; "email_password";
    "directory_of_interest"; "check_time_interval" ].

(** The first key of a list that a dictionary lacks. *)
Fixpoint first_missing (keys : list string) (fields : list (string * jvalue))
    : option string :=
  match keys with
  | [] => None
  | key :: keys' =>
      match dict_get key fields with
      | Some _ => first_missing keys' fields
      | None => Some key
      end
  end.

End Main.

(** ** Sample inputs for the messenger and the entry point *)

Module MailSamples.

(** A stand-in for the base64 encoding. *)
Definition b64 (data : string) : string := "base64:" +:+ data.

Definition operator : Email.messenger :=
  Email.EmailMessenger "/home/u/monitor.txt" "ops@example.org"
    "sentinel@example.org" "hunter2".

(** A home directory with a log file. *)
Definition logged_files : gmap string fentry :=
  {[ "/home/u/monitor.txt" := Text "started" ]}.

(** A server that accepts everything. *)
Definition willing : Email.server := Email.mk_server None None None None None.

(** A server that cannot be reached. *)
Definition unreachable : Email.server :=
  Email.mk_server (Some OSError) None None None None.

(** A server that refuses the upgrade to TLS. *)
Definition no_tls : Email.server :=
  Email.mk_server None (Some SMTPException) None None None.

(** A server that refuses the password. *)
Definition bad_password : Email.server :=
  Email.mk_server None None (Some SMTPException) None None.

(** A configuration without a password. *)
Definition no_password_text : string :=
  MiniJson.dumps None
    (JDict [ ("directory_of_interest", JStr "/srv");
             ("check_time_interval", JInt 5);
             ("log_file_location", JStr "/home/u/monitor.txt");
             ("email_receiver", JStr "ops@example.org");
             ("email_sender", JStr "sentinel@example.org") ]).

Definition no_password_files : gmap string fentry :=
  {[ "/home/u/config.json" := Text no_password_text ]}.

(** A configuration that is a list. *)
Definition list_files : gmap string fentry :=
  {[ "/home/u/config.json" := Text "[1, 2]" ]}.

(** A complete configuration whose values [main] passes on as they are. *)
Definition odd_config : jvalue :=
  JDict [ ("log_file_location", JStr "/home/u/monitor.txt");
          ("email_receiver", JNull);
          ("email_sender", JStr "sentinel@example.org");
          ("email_password", JInt 7);
          ("directory_of_interest", JList []);
          ("check_time_interval", JStr "often") ].

Definition odd_files : gmap string fentry :=
  {[ "/home/u/config.json" := Text (MiniJson.dumps None odd_config) ]}.

(** A configuration whose log file location is empty. *)
Definition console_config : jvalue :=
  JDict [ ("log_file_location", JStr EmptyString);
          ("email_receiver", JStr "ops@example.org");
          ("email_sender", JStr "sentinel@example.org");
          ("email_password", JStr "hunter2");
          ("directory_of_interest", JStr "/srv");
          ("check_time_interval", JInt 5) ].

Definition console_files : gmap string fentry :=
  {[ "/home/u/config.json" := Text (MiniJson.dumps None console_config) ]}.

End MailSamples.

(** ** The monitor with the mail messenger

    [main] hands an [EmailMessenger] to [monitor].  The answer of the
    messenger to its [k]-th call is then what
    [EmailMessenger.send_log_file_with_message] does with the files and the
    server of that moment. *)

Section MonitorWithMail.

Context {K : Type} `{Countable K}.
Variable b64encode : string -> string.
Variable host : platform K.

(** The exception a call of the messenger raises, if any.  It does not
    depend on the text of the message. *)
Definition mail_raises (files : gmap K fentry) (smtp : Email.server)
    (self : Email.messenger) : option exn :=
  match snd (Email.send_log_file_with_message b64encode host files smtp self
               EmptyString) with
  | Raise e => Some e
  | Ok _ => None
  end.

(** The world of a run of [monitor] whose messenger is [self]. *)
Definition with_messenger (clock : nat -> Z) (tree_at : nat -> Fs.node)
    (files_at : nat -> gmap K fentry) (server_at : nat -> Email.server)
    (self : Email.messenger) : env :=
  mk_env clock tree_at (fun k => mail_raises (files_at k) (server_at k) self).

End MonitorWithMail.

(** * Properties *)

(** ** The directory tree *)

Module FsFacts.
Import Fs.

Lemma rglob_from_dir p c es :
  rglob_from p (Dir c es) = children p es ++ descend p es.
Proof.
  simpl. f_equal. unfold descend.
  induction es as [|[name child] es IH]; simpl; [reflexivity|].
  now rewrite IH.
Qed.

Lemma wf_dir c es :
  wf (Dir c es) =
  forallb (fun e => slash_free (fst e)) es && distinct (map fst es) &&
  forallb (fun e => wf (snd e)) es.
Proof.
  simpl. f_equal.
  induction es as [|[name child] es IH]; simpl; [reflexivity|].
  now rewrite IH.
Qed.

Lemma assoc_In name es child : assoc name es = Some child -> In (name, child) es.
Proof.
  induction es as [|[k ch] es IH]; simpl; [discriminate|].
  destruct (decide (k = name)) as [->|Hne].
  - intros [= ->]. now left.
  - intros Hl. right. auto.
Qed.

Lemma distinct_cons x xs :
  distinct (x :: xs) = true -> ~ In x xs /\ distinct xs = true.
Proof.
  simpl. intros Hd. apply andb_true_iff in Hd as [Hx Hd]. split; [|exact Hd].
  apply negb_true_iff, bool_decide_eq_false in Hx.
  intros Hin. apply Hx. now apply list_elem_of_In.
Qed.

Lemma In_assoc name es child :
  distinct (map fst es) = true -> In (name, child) es -> assoc name es = Some child.
Proof.
  induction es as [|[k ch] es IH]; simpl map; intros Hd Hin; [destruct Hin|].
  apply distinct_cons in Hd as [Hk Hd]. simpl.
  destruct Hin as [[= -> ->]|Hin].
  - now rewrite decide_True.
  - destruct (decide (k = name)) as [->|Hne]; [|auto].
    exfalso. apply Hk. apply in_map_iff. now exists (name, child).
Qed.

(** Under [wf], what [rglob] lists is what the non-empty paths denote. *)
Lemma rglob_from_lookup T :
  wf T = true ->
  forall p q n,
    In (q, n) (rglob_from p T) <->
    exists r, r <> [] /\ q = p ++ r /\ lookup_path T r = Some n.
Proof.
  induction T as [c|c es IH|t|c] using node_induction; intros Hwf p q n;
    try (simpl; split;
         [intros []
         |intros (r & Hr & _ & Hl); destruct r; [congruence|discriminate]]).
  rewrite wf_dir in Hwf.
  apply andb_true_iff in Hwf as [Hwf Hall]. apply andb_true_iff in Hwf as [_ Hd].
  rewrite forallb_forall in Hall. rewrite List.Forall_forall in IH.
  rewrite rglob_from_dir, in_app_iff. unfold children, descend.
  rewrite in_map_iff, in_flat_map. split.
  - intros [([k ch] & [= <- <-] & Hin)|([k ch] & Hin & Hq)]; simpl in *.
    + exists [k]. repeat split; [discriminate|]. simpl.
      now rewrite (In_assoc _ _ _ Hd Hin).
    + apply (IH _ Hin (Hall _ Hin)) in Hq as (r & Hr & -> & Hl).
      exists (k :: r). repeat split; [discriminate|now rewrite <- app_assoc|].
      simpl. now rewrite (In_assoc _ _ _ Hd Hin).
  - intros (r & Hr & -> & Hl). destruct r as [|k r]; [congruence|]. simpl in Hl.
    destruct (assoc k es) as [ch|] eqn:Hk; [|discriminate].
    apply assoc_In in Hk. destruct r as [|k' r].
    + injection Hl as ->. left. now exists (k, n).
    + right. exists (k, ch). split; [exact Hk|]. simpl.
      apply (IH _ Hk (Hall _ Hk)). exists (k' :: r).
      repeat split; [discriminate|now rewrite <- app_assoc|exact Hl].
Qed.

Lemma rglob_lookup T q n :
  wf T = true ->
  In (q, n) (rglob T) <-> q <> [] /\ lookup_path T q = Some n.
Proof.
  intros Hwf. unfold rglob. rewrite (rglob_from_lookup T Hwf). simpl. split.
  - intros (r & Hr & -> & Hl). now split.
  - intros [Hq Hl]. now exists q.
Qed.

(** The names along a path of a well-formed tree hold no separator. *)
Lemma lookup_path_slash_free T :
  wf T = true ->
  forall r n, lookup_path T r = Some n -> Forall (fun k => slash_free k = true) r.
Proof.
  induction T as [c|c es IH|t|c] using node_induction; intros Hwf r n Hl;
    try (destruct r; [constructor|discriminate]).
  destruct r as [|k r]; [constructor|]. simpl in Hl.
  destruct (assoc k es) as [ch|] eqn:Hk; [|discriminate].
  apply assoc_In in Hk. rewrite wf_dir in Hwf.
  apply andb_true_iff in Hwf as [Hwf Hall]. apply andb_true_iff in Hwf as [Hsf _].
  rewrite forallb_forall in Hall, Hsf. rewrite List.Forall_forall in IH.
  constructor.
  - exact (Hsf _ Hk).
  - exact (IH _ Hk (Hall _ Hk) r n Hl).
Qed.

(** *** [str] is injective on the paths of a tree *)

Lemma slash_free_cons c s :
  slash_free (String c s) = true -> c <> slash /\ slash_free s = true.
Proof.
  simpl. intros Hs. apply andb_true_iff in Hs as [Hc Hs]. split; [|exact Hs].
  apply negb_true_iff, Ascii.eqb_neq in Hc. exact Hc.
Qed.

Lemma append_nil s : EmptyString +:+ s = s.
Proof. reflexivity. Qed.

Lemma append_cons c s t : String c s +:+ t = String c (s +:+ t).
Proof. reflexivity. Qed.

Lemma component_split a :
  forall b r1 r2,
    slash_free a = true -> slash_free b = true -> tail_ok r1 -> tail_ok r2 ->
    a +:+ r1 = b +:+ r2 -> a = b /\ r1 = r2.
Proof.
  induction a as [|c a IH]; intros [|d b] r1 r2 Ha Hb H1 H2 Heq;
    rewrite ?append_nil, ?append_cons in Heq.
  - now split.
  - apply slash_free_cons in Hb as [Hd _].
    destruct H1 as [->|[r' ->]]; [discriminate|]. injection Heq as <- _. congruence.
  - apply slash_free_cons in Ha as [Hc _].
    destruct H2 as [->|[r' ->]]; [discriminate|]. injection Heq as -> _. congruence.
  - injection Heq as -> Heq.
    apply slash_free_cons in Ha as [_ Ha]. apply slash_free_cons in Hb as [_ Hb].
    destruct (IH b r1 r2 Ha Hb H1 H2 Heq) as [-> ->]. now split.
Qed.

Lemma concat_cons x l : String.concat "/" (x :: l) = x +:+ rest_of l.
Proof.
  destruct l as [|y l]; simpl; [|reflexivity].
  induction x as [|c x IH]; [reflexivity|].
  rewrite append_cons. now f_equal.
Qed.

Lemma rest_of_ok l : tail_ok (rest_of l).
Proof. destruct l; [now left|right; simpl; eauto]. Qed.

Lemma concat_slash_inj l1 :
  forall l2,
    l1 <> [] -> l2 <> [] ->
    Forall (fun k => slash_free k = true) l1 ->
    Forall (fun k => slash_free k = true) l2 ->
    String.concat "/" l1 = String.concat "/" l2 -> l1 = l2.
Proof.
  induction l1 as [|x l1 IH]; intros [|y l2] Hn1 Hn2 H1 H2 Heq; try congruence.
  rewrite !concat_cons in Heq.
  apply Forall_cons_1 in H1 as [Hx H1]. apply Forall_cons_1 in H2 as [Hy H2].
  destruct (component_split x y _ _ Hx Hy (rest_of_ok l1) (rest_of_ok l2) Heq)
    as [-> Hrest].
  f_equal. destruct l1 as [|x1 l1], l2 as [|y1 l2]; try discriminate; [reflexivity|].
  apply IH; try assumption; try discriminate.
  simpl rest_of in Hrest. now injection Hrest.
Qed.

Lemma append_inv_head (a : string) : forall b c, a +:+ b = a +:+ c -> b = c.
Proof.
  induction a as [|x a IH]; intros b c Heq;
    rewrite ?append_nil, ?append_cons in Heq; [exact Heq|].
  injection Heq. auto.
Qed.

Lemma path_str_inj root_dir T p q n m :
  wf T = true -> p <> [] -> q <> [] ->
  lookup_path T p = Some n -> lookup_path T q = Some m ->
  path_str root_dir p = path_str root_dir q -> p = q.
Proof.
  intros Hwf Hp Hq Hlp Hlq Heq. unfold path_str in Heq.
  apply append_inv_head in Heq.
  apply concat_slash_inj; eauto using lookup_path_slash_free.
Qed.

End FsFacts.

(** ** The scan *)

Section ScanFacts.

Variable time_ctime : Z -> string.
Variable root_dir : string.
Variable cutoff : Z.

Lemma reported_file_with_ctime n ct :
  reported cutoff n = Some ct <-> file_with_ctime n ct /\ cutoff < ct.
Proof.
  unfold reported. split.
  - destruct n as [c|c es|[[k c]|]|c]; simpl; try discriminate;
      try (destruct k; simpl; try discriminate);
      destruct (Z.gtb_spec c cutoff); try discriminate;
      intros [= <-]; (split; [constructor|lia]).
  - intros [Hf Hgt]. destruct Hf as [c|c]; simpl;
      (destruct (Z.gtb_spec c cutoff); [reflexivity|lia]).
Qed.

(** On these trees one turn of the loop does not raise: [stat()] is only
    called on an entry for which [is_file()] has just succeeded. *)
Lemma scan_entry_eq new_files q n :
  scan_entry time_ctime root_dir cutoff new_files (q, n) =
  Ok (match reported cutoff n with
      | Some ct => <[Fs.path_str root_dir q := time_ctime ct]> new_files
      | None => new_files
      end).
Proof.
  unfold scan_entry, reported, Fs.is_file.
  destruct (Fs.stat n) as [st|]; [|reflexivity].
  destruct (bool_decide (Fs.st_mode st = Fs.Regular)); simpl; [|reflexivity].
  now destruct (Fs.st_ctime st >? cutoff).
Qed.

Lemma scan_entries_lookup l :
  forall new_files,
    (forall q1 n1 q2 n2,
        In (q1, n1) l -> In (q2, n2) l ->
        Fs.path_str root_dir q1 = Fs.path_str root_dir q2 -> n1 = n2) ->
    exists new_files',
      scan_entries time_ctime root_dir cutoff new_files l = Ok new_files' /\
      forall key v,
        new_files' !! key = Some v <->
        (exists q n ct,
            In (q, n) l /\ reported cutoff n = Some ct /\
            key = Fs.path_str root_dir q /\ v = time_ctime ct) \/
        (new_files !! key = Some v /\
         forall q n, In (q, n) l -> key = Fs.path_str root_dir q ->
                     reported cutoff n = None).
Proof.
  induction l as [|[q0 n0] l IH]; intros new_files Hfun.
  - exists new_files. split; [reflexivity|]. intros key v. split.
    + intros Hl. right. split; [exact Hl|]. intros ? ? [].
    + intros [(q & n & ct & [] & _)|[Hl _]]. exact Hl.
  - cbn [scan_entries]. rewrite scan_entry_eq. cbn [result_bind].
    set (m1 := match reported cutoff n0 with
               | Some ct => <[Fs.path_str root_dir q0 := time_ctime ct]> new_files
               | None => new_files
               end).
    destruct (IH m1) as (m' & Hrun & Hm').
    { intros q1 n1 q2 n2 H1 H2. apply Hfun; now right. }
    exists m'. split; [exact Hrun|]. intros key v. rewrite Hm'. clear Hm' Hrun.
    split.
    + intros [(q & n & ct & Hin & Hrep & -> & ->)|[Hl Hnone]].
      * left. exists q, n, ct. repeat split; try assumption. now right.
      * subst m1. destruct (reported cutoff n0) as [ct0|] eqn:Hrep0.
        -- destruct (decide (Fs.path_str root_dir q0 = key)) as [<-|Hne].
           ++ rewrite lookup_insert_eq in Hl. injection Hl as <-.
              left. exists q0, n0, ct0. repeat split; try assumption. now left.
           ++ rewrite lookup_insert_ne in Hl by exact Hne.
              right. split; [exact Hl|]. intros q n [[= <- <-]|Hin] Hk.
              ** congruence.
              ** eauto.
        -- right. split; [exact Hl|]. intros q n [[= <- <-]|Hin] Hk; eauto.
    + intros [(q & n & ct & [[= -> ->]|Hin] & Hrep & -> & ->)|[Hl Hnone]].
      * destruct (in_dec string_dec (Fs.path_str root_dir q)
                    (map (fun e => Fs.path_str root_dir (fst e)) l)) as [Hk|Hk].
        -- apply in_map_iff in Hk as ([q' n'] & Hq' & Hin'). simpl in Hq'.
           left. exists q', n', ct. repeat split; try assumption; [|congruence].
           rewrite (Hfun q' n' q n); try assumption; [now right|now left].
        -- right. subst m1. rewrite Hrep, lookup_insert_eq. split; [reflexivity|].
           intros q' n' Hin' Hq'. exfalso. apply Hk. apply in_map_iff.
           now exists (q', n').
      * left. exists q, n, ct. now repeat split.
      * right. split.
        -- subst m1. destruct (reported cutoff n0) as [ct0|] eqn:Hrep0; [|exact Hl].
           rewrite lookup_insert_ne; [exact Hl|]. intros <-.
           specialize (Hnone q0 n0 (or_introl eq_refl) eq_refl). congruence.
        -- intros q n Hin. apply Hnone. now right.
Qed.

(** What the scan of a well-formed tree returns, key by key. *)
Lemma get_new_files_lookup tree :
  Fs.wf tree = true ->
  exists new_files,
    get_new_files time_ctime root_dir tree cutoff = Ok new_files /\
    forall key v,
      new_files !! key = Some v <->
      exists p n ct,
        p <> [] /\ Fs.lookup_path tree p = Some n /\
        file_with_ctime n ct /\ cutoff < ct /\
        key = Fs.path_str root_dir p /\ v = time_ctime ct.
Proof.
  intros Hwf. unfold get_new_files.
  destruct (scan_entries_lookup (Fs.rglob tree) ∅) as (m & Hrun & Hm).
  { intros q1 n1 q2 n2 H1 H2 Hk.
    apply (FsFacts.rglob_lookup _ _ _ Hwf) in H1 as [Hq1 Hl1].
    apply (FsFacts.rglob_lookup _ _ _ Hwf) in H2 as [Hq2 Hl2].
    assert (q1 = q2) as -> by eauto using FsFacts.path_str_inj.
    congruence. }
  exists m. split; [exact Hrun|]. intros key v. rewrite Hm. split.
  - intros [(q & n & ct & Hin & Hrep & -> & ->)|[Hl _]].
    + apply (FsFacts.rglob_lookup _ _ _ Hwf) in Hin as [Hq Hl].
      apply reported_file_with_ctime in Hrep as [Hf Hgt].
      exists q, n, ct. now repeat split.
    + now rewrite lookup_empty in Hl.
  - intros (p & n & ct & Hp & Hl & Hf & Hgt & -> & ->).
    left. exists p, n, ct. repeat split.
    + now apply FsFacts.rglob_lookup.
    + now apply reported_file_with_ctime.
Qed.

End ScanFacts.

Lemma file_with_ctime_fun n ct1 ct2 :
  file_with_ctime n ct1 -> file_with_ctime n ct2 -> ct1 = ct2.
Proof. intros H1 H2. destruct H1; inversion H2; reflexivity. Qed.

(** C1, as amended.  For every well-formed directory tree and every cutoff,
    [get_new_files] returns a mapping whose keys are exactly the paths of the
    entries that [is_file()] accepts (regular files, and symbolic links that
    resolve to a regular file) and whose [st_ctime] is strictly greater than
    the cutoff, each mapped to the [time.ctime] rendering of that timestamp.
    An entry whose timestamp is less than or equal to the cutoff is not a
    key, and an empty directory yields the empty mapping. *)
Theorem get_new_files_reports_new_files
    (time_ctime : Z -> string) (root_dir : string) (tree : Fs.node) (cutoff : Z) :
  Fs.wf tree = true ->
  (exists new_files,
      get_new_files time_ctime root_dir tree cutoff = Ok new_files /\
      (forall key v,
          new_files !! key = Some v <->
          exists p n ct,
            p <> [] /\ Fs.lookup_path tree p = Some n /\
            file_with_ctime n ct /\ cutoff < ct /\
            key = Fs.path_str root_dir p /\ v = time_ctime ct) /\
      (forall p n ct,
          p <> [] -> Fs.lookup_path tree p = Some n ->
          file_with_ctime n ct -> ct <= cutoff ->
          new_files !! Fs.path_str root_dir p = None)) /\
  (forall t, get_new_files time_ctime root_dir (Fs.Dir t []) cutoff = Ok ∅).
Proof.
  intros Hwf. split; [|reflexivity].
  destruct (get_new_files_lookup time_ctime root_dir cutoff tree Hwf)
    as (new_files & Hrun & Hkeys).
  exists new_files. repeat split; [exact Hrun|apply Hkeys|apply Hkeys|].
  intros p n ct Hp Hl Hf Hle.
  destruct (new_files !! Fs.path_str root_dir p) as [v|] eqn:Hv; [|reflexivity].
  apply Hkeys in Hv as (p' & n' & ct' & Hp' & Hl' & Hf' & Hgt & Hk & _).
  assert (p = p') as <- by eauto using FsFacts.path_str_inj.
  assert (n' = n) as -> by congruence.
  rewrite (file_with_ctime_fun _ _ _ Hf Hf') in Hle. lia.
Qed.

Lemma get_new_files_reports_new_files_witness :
  Fs.wf Sample.tree1 = true /\
  exists new_files,
    get_new_files Sample.render "/srv" Sample.tree1 20 = Ok new_files /\
    new_files !! "/srv/latest" = None.
Proof.
  split; [reflexivity|].
  destruct (get_new_files_reports_new_files Sample.render "/srv" Sample.tree1 20
              eq_refl) as [(new_files & Hrun & _ & Hold) _].
  exists new_files. split; [exact Hrun|].
  apply (Hold ["latest"] (Fs.Symlink (Some (Fs.mk_stat Fs.Regular 20))) 20);
    [discriminate|reflexivity|constructor|lia].
Defined.

(** C1, as first stated, fails: the scan of a directory that holds a
    symbolic link to a recent regular file returns the link's path as a key,
    and that entry is not a regular file of the tree. *)
Lemma get_new_files_key_not_regular_file :
  get_new_files Sample.render "/srv" Sample.tree_link 10
    = Ok {[ "/srv/latest" := "t=20" ]} /\
  ~ keys_are_new_regular_files "/srv" Sample.tree_link 10
      {[ "/srv/latest" := "t=20" ]}.
Proof.
  split; [reflexivity|]. intros Hclaim.
  destruct (proj1 (Hclaim "/srv/latest")) as (p & ct & Hp & Hl & _).
  { rewrite dom_singleton_L. now apply elem_of_singleton. }
  destruct p as [|k p]; [congruence|]. simpl in Hl.
  destruct (decide ("latest" = k)); [|discriminate].
  destruct p; discriminate.
Qed.

(** C4, as amended.  Among the entries of a well-formed tree, only regular
    files and symbolic links that resolve to a regular file appear as keys
    of the scan: directories, special files, dangling links and links to
    anything else never do.  A symbolic link to a regular file whose
    timestamp exceeds the cutoff does appear.  The traversal descends into
    every directory, so a regular file at any depth whose timestamp exceeds
    the cutoff is reported. *)
Theorem get_new_files_entry_kinds
    (time_ctime : Z -> string) (root_dir : string) (tree : Fs.node) (cutoff : Z) :
  Fs.wf tree = true ->
  exists new_files,
    get_new_files time_ctime root_dir tree cutoff = Ok new_files /\
    (forall p n,
        p <> [] -> Fs.lookup_path tree p = Some n ->
        Fs.path_str root_dir p ∈ dom new_files ->
        (exists ct, n = Fs.File ct) \/
        (exists ct, n = Fs.Symlink (Some (Fs.mk_stat Fs.Regular ct)))) /\
    (forall p ct,
        p <> [] ->
        Fs.lookup_path tree p = Some (Fs.Symlink (Some (Fs.mk_stat Fs.Regular ct))) ->
        cutoff < ct ->
        new_files !! Fs.path_str root_dir p = Some (time_ctime ct)) /\
    (forall p ct,
        p <> [] -> Fs.lookup_path tree p = Some (Fs.File ct) -> cutoff < ct ->
        new_files !! Fs.path_str root_dir p = Some (time_ctime ct)).
Proof.
  intros Hwf.
  destruct (get_new_files_lookup time_ctime root_dir cutoff tree Hwf)
    as (new_files & Hrun & Hkeys).
  exists new_files. split; [exact Hrun|]. repeat split.
  - intros p n Hp Hl Hin. apply elem_of_dom in Hin as [v Hv].
    apply Hkeys in Hv as (p' & n' & ct' & Hp' & Hl' & Hf' & _ & Hk & _).
    assert (p = p') as <- by eauto using FsFacts.path_str_inj.
    assert (n' = n) as -> by congruence.
    destruct Hf'; eauto.
  - intros p ct Hp Hl Hgt. apply Hkeys.
    exists p, (Fs.Symlink (Some (Fs.mk_stat Fs.Regular ct))), ct.
    repeat split; try assumption. constructor.
  - intros p ct Hp Hl Hgt. apply Hkeys.
    exists p, (Fs.File ct), ct. repeat split; try assumption. constructor.
Qed.

Lemma get_new_files_entry_kinds_witness :
  Fs.wf Sample.tree1 = true /\
  exists new_files,
    get_new_files Sample.render "/srv" Sample.tree1 10 = Ok new_files /\
    new_files !! "/srv/sub/b.txt" = Some "t=30".
Proof.
  split; [reflexivity|].
  destruct (get_new_files_entry_kinds Sample.render "/srv" Sample.tree1 10 eq_refl)
    as (new_files & Hrun & _ & _ & Hdeep).
  exists new_files. split; [exact Hrun|].
  apply (Hdeep ["sub"; "b.txt"] 30); [discriminate|reflexivity|lia].
Defined.

(** C4, as first stated, fails: in the scan of [Sample.tree1] the entry
    [latest], a symbolic link, appears as a key of the result. *)
Lemma get_new_files_reports_symlink :
  get_new_files Sample.render "/srv" Sample.tree1 10
    = Ok {[ "/srv/sub/b.txt" := "t=30"; "/srv/latest" := "t=20" ]} /\
  ~ only_regular_files_appear "/srv" Sample.tree1
      {[ "/srv/sub/b.txt" := "t=30"; "/srv/latest" := "t=20" ]}.
Proof.
  split; [reflexivity|]. intros Hclaim.
  destruct (Hclaim ["latest"] (Fs.Symlink (Some (Fs.mk_stat Fs.Regular 20))))
    as [ct Hct]; [discriminate|reflexivity| |discriminate].
  apply elem_of_dom. exists "t=20". reflexivity.
Qed.

(** Whatever the names in the tree, the scan returns, and every key it
    returns comes from a listed entry newer than the cutoff. *)
Lemma scan_entries_sound time_ctime root_dir cutoff l :
  forall new_files,
  exists new_files',
    scan_entries time_ctime root_dir cutoff new_files l = Ok new_files' /\
    forall key v,
      new_files' !! key = Some v ->
      (exists q n ct,
          In (q, n) l /\ reported cutoff n = Some ct /\
          key = Fs.path_str root_dir q /\ v = time_ctime ct) \/
      new_files !! key = Some v.
Proof.
  induction l as [|[q0 n0] l IH]; intros new_files.
  - exists new_files. split; [reflexivity|]. now right.
  - cbn [scan_entries]. rewrite scan_entry_eq. cbn [result_bind].
    match goal with
    | |- context [scan_entries _ _ _ ?m l] => destruct (IH m) as (m' & Hrun & Hm')
    end.
    exists m'. split; [exact Hrun|]. intros key v Hv.
    destruct (Hm' key v Hv) as [(q & n & ct & Hin & Hrest)|Hl].
    + left. exists q, n, ct. split; [now right|exact Hrest].
    + destruct (reported cutoff n0) as [ct0|] eqn:Hrep0; [|now right].
      destruct (decide (Fs.path_str root_dir q0 = key)) as [<-|Hne].
      * rewrite lookup_insert_eq in Hl. injection Hl as <-.
        left. exists q0, n0, ct0. repeat split; try assumption. now left.
      * rewrite lookup_insert_ne in Hl by exact Hne. now right.
Qed.

Lemma get_new_files_sound time_ctime root_dir tree cutoff :
  exists new_files,
    get_new_files time_ctime root_dir tree cutoff = Ok new_files /\
    forall key,
      key ∈ dom new_files ->
      exists q n ct,
        In (q, n) (Fs.rglob tree) /\ file_with_ctime n ct /\ cutoff < ct /\
        key = Fs.path_str root_dir q.
Proof.
  destruct (scan_entries_sound time_ctime root_dir cutoff (Fs.rglob tree) ∅)
    as (m & Hrun & Hm).
  exists m. split; [exact Hrun|]. intros key [v Hv]%elem_of_dom.
  destruct (Hm key v Hv) as [(q & n & ct & Hin & Hrep & -> & _)|Hl].
  - apply reported_file_with_ctime in Hrep as [Hf Hgt]. eauto 8.
  - now rewrite lookup_empty in Hl.
Qed.

(** ** The order of the dictionary *)

Section OrderFacts.

Variable time_ctime : Z -> string.
Variable root_dir : string.
Variable cutoff : Z.

Lemma scan_keys_cons keys q n rest :
  scan_keys root_dir cutoff keys ((q, n) :: rest) =
  scan_keys root_dir cutoff
    (match reported cutoff n with
     | Some _ => assign_key (Fs.path_str root_dir q) keys
     | None => keys
     end) rest.
Proof.
  cbn [scan_keys]. f_equal. unfold reported, Fs.is_file.
  destruct (Fs.stat n) as [st|]; [|reflexivity].
  destruct (bool_decide (Fs.st_mode st = Fs.Regular)); simpl; [|reflexivity].
  now destruct (Fs.st_ctime st >? cutoff).
Qed.

Lemma elem_of_assign_key k key keys :
  k ∈ assign_key key keys <-> k = key \/ k ∈ keys.
Proof.
  unfold assign_key. case_bool_decide as Hin.
  - split; [now right|]. intros [->|Hk]; assumption.
  - rewrite elem_of_app, list_elem_of_singleton. tauto.
Qed.

Lemma assign_key_NoDup key keys : NoDup keys -> NoDup (assign_key key keys).
Proof.
  intros Hnd. unfold assign_key. case_bool_decide as Hin; [exact Hnd|].
  apply NoDup_app. split; [exact Hnd|]. split; [|apply NoDup_singleton].
  intros k Hk ->%list_elem_of_singleton. contradiction.
Qed.

Lemma assign_key_listing key keys :
  assign_key key keys = keys \/ assign_key key keys = keys ++ [key].
Proof. unfold assign_key. case_bool_decide; auto. Qed.

Lemma scan_keys_NoDup entries :
  forall keys, NoDup keys -> NoDup (scan_keys root_dir cutoff keys entries).
Proof.
  induction entries as [|[q n] entries IH]; intros keys Hnd; [exact Hnd|].
  rewrite scan_keys_cons. apply IH.
  destruct (reported cutoff n); [now apply assign_key_NoDup|exact Hnd].
Qed.

(** The keys in order are the keys of the mapping. *)
Lemma scan_keys_dom entries :
  forall keys new_files new_files',
    (forall k, k ∈ keys <-> k ∈ dom new_files) ->
    scan_entries time_ctime root_dir cutoff new_files entries = Ok new_files' ->
    forall k, k ∈ scan_keys root_dir cutoff keys entries <-> k ∈ dom new_files'.
Proof.
  induction entries as [|[q n] entries IH]; intros keys m m' Hsame Hrun.
  - injection Hrun as <-. exact Hsame.
  - rewrite scan_keys_cons. cbn [scan_entries] in Hrun.
    rewrite scan_entry_eq in Hrun. cbn [result_bind] in Hrun.
    apply (IH _ _ _) with (2 := Hrun). intros k.
    destruct (reported cutoff n) as [ct|]; [|apply Hsame].
    rewrite elem_of_assign_key, dom_insert, elem_of_union, elem_of_singleton.
    now rewrite Hsame.
Qed.

(** The keys are assigned in the order of the listing. *)
Lemma scan_keys_listing entries :
  forall keys,
  exists qs,
    scan_keys root_dir cutoff keys entries
    = keys ++ map (Fs.path_str root_dir) qs /\
    sublist qs (map fst entries).
Proof.
  induction entries as [|[q n] entries IH]; intros keys.
  - exists []. split; [now rewrite app_nil_r|constructor].
  - rewrite scan_keys_cons.
    match goal with
    | |- context [scan_keys _ _ ?ks entries] =>
        destruct (IH ks) as (qs & -> & Hsub)
    end.
    destruct (reported cutoff n) as [ct|].
    + destruct (assign_key_listing (Fs.path_str root_dir q) keys) as [->| ->].
      * exists qs. split; [reflexivity|now constructor].
      * exists (q :: qs). split; [now rewrite <- app_assoc|now constructor].
    + exists qs. split; [reflexivity|now constructor].
Qed.

(** The items of the dictionary a scan returns: each entry of the mapping
    once, in the order in which the listing first shows its path. *)
Lemma scanned_items tree new_files :
  get_new_files time_ctime root_dir tree cutoff = Ok new_files ->
  exists qs,
    map fst (dict_items
               (mk_pydict new_files (insertion_order root_dir tree cutoff)))
    = map (Fs.path_str root_dir) qs /\
    sublist qs (map fst (Fs.rglob tree)) /\
    NoDup (map (Fs.path_str root_dir) qs) /\
    forall k v,
      In (k, v)
        (dict_items (mk_pydict new_files (insertion_order root_dir tree cutoff)))
      <-> new_files !! k = Some v.
Proof.
  intros Hrun. unfold get_new_files in Hrun. unfold insertion_order.
  pose proof (scan_keys_dom (Fs.rglob tree) [] ∅ new_files) as Hdom.
  specialize (Hdom ltac:(intros k; rewrite dom_empty; split; intros Hk;
                         [inversion Hk|now apply not_elem_of_empty in Hk]) Hrun).
  pose proof (scan_keys_NoDup (Fs.rglob tree) [] NoDup_nil_2) as Hnd.
  destruct (scan_keys_listing (Fs.rglob tree) []) as (qs & Hkeys & Hsub).
  simpl in Hkeys. rewrite Hkeys in *.
  assert (map fst (dict_items
                     (mk_pydict new_files (map (Fs.path_str root_dir) qs)))
          = map (Fs.path_str root_dir) qs) as Hfst.
  { unfold dict_items. simpl.
    assert (forall k, k ∈ map (Fs.path_str root_dir) qs -> k ∈ dom new_files)
      as Hall by (intros k; apply Hdom).
    clear Hdom Hnd Hkeys Hsub. induction (map (Fs.path_str root_dir) qs)
      as [|key keys IH]; [reflexivity|].
    cbn [omap list_omap].
    assert (key ∈ dom new_files) as [v Hv]%elem_of_dom
      by (apply Hall, elem_of_cons; now left).
    rewrite Hv. simpl. f_equal. apply IH. intros k Hk.
    apply Hall, elem_of_cons. now right. }
  exists qs. split; [exact Hfst|]. split; [exact Hsub|]. split; [exact Hnd|].
  intros k v. rewrite <- list_elem_of_In. unfold dict_items. simpl.
  rewrite list_elem_of_omap. split.
  - intros (key & _ & Hsome).
    destruct (new_files !! key) as [value|] eqn:Hl; [|discriminate].
    simpl in Hsome. now injection Hsome as <- <-.
  - intros Hl. exists k. split.
    + apply Hdom, elem_of_dom. eauto.
    + now rewrite Hl.
Qed.

End OrderFacts.

(** ** The monitor loop *)

Section MonitorFacts.

Variable lib : library.
Variable world : env.
Variable root_dir : string.
Variable time_interval : Z.

(** The interval is not negative: [time.sleep] accepts the duration. *)
Hypothesis interval_nonneg : 0 <= time_interval.

Abbreviation body := (monitor_body lib world root_dir time_interval).
Abbreviation run fuel := (monitor lib world fuel root_dir time_interval).
Abbreviation scan_of s :=
  (get_new_files (time_ctime lib) root_dir (tree_at world (scans s))
     (last_check_time s)).
Abbreviation dict_of s new_files :=
  (mk_pydict new_files
     (insertion_order root_dir (tree_at world (scans s)) (last_check_time s))).

Lemma len_positive (d : pydict) : (len d >? 0) = true <-> mapping d <> ∅.
Proof.
  unfold len. rewrite <- map_size_non_empty_iff.
  destruct (Z.gtb_spec (Z.of_nat (size (mapping d))) 0); split; intros;
    try lia; congruence.
Qed.

Lemma len_empty keys : (len (mk_pydict ∅ keys) >? 0) = false.
Proof. unfold len. simpl. now rewrite map_size_empty. Qed.

Lemma sleep_accepted : (time_interval * 60 <? 0) = false.
Proof. apply Z.ltb_ge. lia. Qed.

(** A turn that finds new files. *)
Lemma body_new_files s new_files :
  scan_of s = Ok new_files -> new_files <> ∅ ->
  body s =
  (mk_state (clock world (readings s)) (S (readings s)) (S (scans s)) (sends s)
     (trace s ++
      [EvSleep (time_interval * 60); EvScan (last_check_time s) (Ok new_files);
       EvLogInfo (new_files_message lib (dict_of s new_files));
       EvTime (clock world (readings s))]),
   Ok tt).
Proof.
  intros Hscan Hne.
  assert ((len (dict_of s new_files) >? 0) = true) as Hlen
    by now apply len_positive.
  unfold monitor_body, bind, time_sleep, call_get_new_files, logging_info,
    time_time, assign_last_check_time, log. rewrite sleep_accepted. cbn.
  rewrite Hscan. cbn. rewrite Hlen. cbn. now rewrite <- !app_assoc.
Qed.

(** A turn that finds nothing, with a messenger that returns. *)
Lemma body_no_new_files s :
  scan_of s = Ok ∅ -> send_raises world (sends s) = None ->
  body s =
  (mk_state (clock world (readings s)) (S (readings s)) (S (scans s)) (S (sends s))
     (trace s ++
      [EvSleep (time_interval * 60); EvScan (last_check_time s) (Ok ∅);
       EvSend (no_new_files_message time_interval);
       EvLogInfo "new files check, no new files were created";
       EvTime (clock world (readings s))]),
   Ok tt).
Proof.
  intros Hscan Hsend.
  unfold monitor_body, bind, time_sleep, call_get_new_files, logging_info,
    send_log_file_with_message, time_time, assign_last_check_time, log.
  rewrite sleep_accepted. cbn. rewrite Hscan. cbn. rewrite len_empty. cbn.
  rewrite Hsend. cbn.
  now rewrite <- !app_assoc.
Qed.

(** A turn that finds nothing, with a messenger that raises. *)
Lemma body_send_raises s e :
  scan_of s = Ok ∅ -> send_raises world (sends s) = Some e ->
  body s =
  (mk_state (last_check_time s) (readings s) (S (scans s)) (S (sends s))
     (trace s ++
      [EvSleep (time_interval * 60); EvScan (last_check_time s) (Ok ∅);
       EvSend (no_new_files_message time_interval)]),
   Raise e).
Proof.
  intros Hscan Hsend.
  unfold monitor_body, bind, time_sleep, call_get_new_files, logging_info,
    send_log_file_with_message, time_time, assign_last_check_time, log.
  rewrite sleep_accepted. cbn. rewrite Hscan. cbn. rewrite len_empty. cbn.
  rewrite Hsend. cbn.
  now rewrite <- !app_assoc.
Qed.


Lemma while_true_unfold fuel (B : M unit) s :
  py_while (S fuel) (ret true) B s =
  match B s with
  | (s2, Raise e) => (s2, Raised e)
  | (s2, Ok _) => py_while fuel (ret true) B s2
  end.
Proof. reflexivity. Qed.

(** One more turn of fuel runs the body once more, from the state the
    previous turns left, unless the call had already stopped. *)
Lemma while_true_succ (B : M unit) fuel :
  forall s,
    py_while (S fuel) (ret true) B s =
    match py_while fuel (ret true) B s with
    | (s', Running) => after_body (B s')
    | stopped => stopped
    end.
Proof.
  induction fuel as [|fuel IH]; intros s.
  - simpl. destruct (B s) as [s2 [[]|e]]; reflexivity.
  - rewrite while_true_unfold. rewrite (while_true_unfold fuel).
    destruct (B s) as [s2 [u|e]]; [apply IH|reflexivity].
Qed.

Lemma monitor_eq fuel s0 :
  run fuel s0 = py_while fuel (ret true) body (started world s0).
Proof. reflexivity. Qed.

Lemma monitor_zero s0 : run O s0 = (started world s0, Running).
Proof. reflexivity. Qed.

Lemma monitor_succ fuel s0 :
  run (S fuel) s0 =
  match run fuel s0 with
  | (s', Running) => after_body (body s')
  | stopped => stopped
  end.
Proof. rewrite !monitor_eq. apply while_true_succ. Qed.

Lemma monitor_step fuel s0 s :
  run fuel s0 = (s, Running) -> run (S fuel) s0 = after_body (body s).
Proof. intros Hrun. now rewrite monitor_succ, Hrun. Qed.

(** A call that is in the loop after [S fuel] turns was in it after [fuel]. *)
Lemma monitor_running_before fuel s0 s' :
  run (S fuel) s0 = (s', Running) -> exists s, run fuel s0 = (s, Running).
Proof.
  rewrite monitor_succ. destruct (run fuel s0) as [s [| |]]; try discriminate.
  eauto.
Qed.

(** The three ways a turn of the loop can go. *)
Lemma body_cases s :
  exists new_files,
    scan_of s = Ok new_files /\
    ((new_files <> ∅ /\
      body s =
      (mk_state (clock world (readings s)) (S (readings s)) (S (scans s)) (sends s)
         (trace s ++
          [EvSleep (time_interval * 60); EvScan (last_check_time s) (Ok new_files);
           EvLogInfo (new_files_message lib (dict_of s new_files));
           EvTime (clock world (readings s))]),
       Ok tt)) \/
     (new_files = ∅ /\ send_raises world (sends s) = None /\
      body s =
      (mk_state (clock world (readings s)) (S (readings s)) (S (scans s))
         (S (sends s))
         (trace s ++
          [EvSleep (time_interval * 60); EvScan (last_check_time s) (Ok ∅);
           EvSend (no_new_files_message time_interval);
           EvLogInfo "new files check, no new files were created";
           EvTime (clock world (readings s))]),
       Ok tt)) \/
     (new_files = ∅ /\
      exists e, send_raises world (sends s) = Some e /\
      body s =
      (mk_state (last_check_time s) (readings s) (S (scans s)) (S (sends s))
         (trace s ++
          [EvSleep (time_interval * 60); EvScan (last_check_time s) (Ok ∅);
           EvSend (no_new_files_message time_interval)]),
       Raise e))).
Proof.
  destruct (get_new_files_sound (time_ctime lib) root_dir (tree_at world (scans s))
              (last_check_time s)) as (new_files & Hscan & _).
  exists new_files. split; [exact Hscan|].
  destruct (decide (new_files = ∅)) as [->|Hne].
  - right. destruct (send_raises world (sends s)) as [e|] eqn:Hsend.
    + right. split; [reflexivity|]. exists e. split; [reflexivity|].
      now apply body_send_raises.
    + left. repeat split. now apply body_no_new_files.
  - left. split; [exact Hne|]. now apply body_new_files.
Qed.

(** After [fuel] completed turns the cutoff is the latest reading of the
    clock, and one reading and one scan were consumed per turn. *)
Lemma monitor_running_state fuel :
  forall s0 s,
    run fuel s0 = (s, Running) ->
    last_check_time s = clock world (readings s0 + fuel) /\
    readings s = S (readings s0 + fuel) /\
    scans s = (scans s0 + fuel)%nat.
Proof.
  induction fuel as [|fuel IH]; intros s0 s Hrun.
  - rewrite monitor_zero in Hrun. injection Hrun as <-. simpl.
    rewrite !Nat.add_0_r. auto.
  - destruct (monitor_running_before _ _ _ Hrun) as [s1 Hrun1].
    destruct (IH _ _ Hrun1) as (Hl & Hr & Hs).
    rewrite (monitor_step _ _ _ Hrun1) in Hrun.
    destruct (body_cases s1) as (nf & _ & [(_ & Hb)|[(_ & _ & Hb)|(_ & e & _ & Hb)]]);
      rewrite Hb in Hrun; simpl in Hrun; try discriminate;
      injection Hrun as <-; simpl; rewrite Hr, Hs, !Nat.add_succ_r; auto.
Qed.

Lemma clock_monotone_le :
  (forall k, clock world k <= clock world (S k)) ->
  forall a b, (a <= b)%nat -> clock world a <= clock world b.
Proof.
  intros Hmono a b Hab. induction Hab as [|b Hab IH]; [lia|].
  specialize (Hmono b). lia.
Qed.

(** C2.  In the turn of the loop that follows any number of completed
    turns, the messenger is called if and only if the scan result is
    empty.  When the result is not empty, the turn sleeps, scans, writes
    one log entry and reads the clock, without a call of the messenger;
    the log entry is the text [new files check, following files were
    created: ] followed by [json.dumps(new_files, indent=4)], the whole
    mapping: every entry once, in the order in which the listing shows
    the paths.  When the result is empty, the messenger is called with
    the text [No new files were created in the last N minutes], [N] the
    interval as given; once that call returns, the entry [new files
    check, no new files were created] is logged (a call that raises ends
    the turn there). *)
Theorem monitor_notifies_iff_nothing_new fuel s0 s :
  monitor lib world fuel root_dir time_interval s0
    = (s, Running) ->
  exists new_files s' o evs,
    get_new_files (time_ctime lib) root_dir (tree_at world (scans s))
      (last_check_time s) = Ok new_files /\
    monitor lib world (S fuel) root_dir time_interval s0
      = (s', o) /\
    trace s' = trace s ++ evs /\
    ((exists message, In (EvSend message) evs) <-> new_files = ∅) /\
    (new_files <> ∅ ->
     exists items qs,
       map fst items = map (Fs.path_str root_dir) qs /\
       sublist qs (map fst (Fs.rglob (tree_at world (scans s)))) /\
       NoDup (map fst items) /\
       (forall key value,
           In (key, value) items <-> new_files !! key = Some value) /\
       evs = [EvSleep (time_interval * 60);
              EvScan (last_check_time s) (Ok new_files);
              EvLogInfo
                ("new files check, following files were created: " +:+
                 json_dumps lib (Some 4%nat)
                   (JDict (map (fun kv => (fst kv, JStr (snd kv))) items)));
              EvTime (clock world (readings s))] /\
       o = Running) /\
    (new_files = ∅ ->
     exists rest,
       evs = [EvSleep (time_interval * 60);
              EvScan (last_check_time s) (Ok ∅);
              EvSend
                ("No new files were created in the last " +:+
                 pretty time_interval +:+ " minutes")] ++ rest /\
       (send_raises world (sends s) = None ->
        rest = [EvLogInfo "new files check, no new files were created";
                EvTime (clock world (readings s))] /\
        o = Running) /\
       (forall e, send_raises world (sends s) = Some e ->
                  rest = [] /\ o = Raised e)).
Proof.
  intros Hrun. rewrite (monitor_step _ _ _ Hrun).
  destruct (body_cases s)
    as (nf & Hscan & [(Hne & Hb)|[(-> & Hsend & Hb)|(-> & e & Hsend & Hb)]]);
    rewrite Hb; simpl after_body; exists nf || exists (∅ : gmap string string);
    eexists _, _, _; (split; [exact Hscan|]); (split; [reflexivity|]);
    (split; [reflexivity|]).
  - split; [|split]; [| |congruence].
    + split; [|congruence].
      intros [m [|[|[|[|[]]]]]]; discriminate.
    + intros _.
      destruct (scanned_items (time_ctime lib) root_dir (last_check_time s)
                  (tree_at world (scans s)) nf Hscan)
        as (qs & Hfst & Hsub & Hnd & Hin).
      exists (dict_items (dict_of s nf)), qs.
      split; [exact Hfst|]. split; [exact Hsub|].
      split; [now rewrite Hfst|]. split; [exact Hin|].
      split; reflexivity.
  - split; [|split]; [|congruence|].
    + split; [reflexivity|]. intros _. eexists. right. right. left. reflexivity.
    + intros _. eexists. split; [reflexivity|]. split; [|congruence].
      intros _. split; reflexivity.
  - split; [|split]; [|congruence|].
    + split; [reflexivity|]. intros _. eexists. right. right. left. reflexivity.
    + intros _. exists []. split; [reflexivity|]. split; [congruence|].
      intros e' He'. rewrite Hsend in He'. injection He' as <-. split; reflexivity.
Qed.

(** C3, as amended.  The cutoff is initialised to the reading of the clock
    at the start of the loop.  Every turn that reaches its end, whichever
    branch it took, has assigned to the cutoff the reading of the clock
    taken after its scan.  Hence, provided the successive readings of the
    clock do not decrease, the cutoff never decreases from one turn to a
    later one.  Every key a turn reports comes from an entry whose
    timestamp is strictly greater than the cutoff at the start of that
    turn. *)
Theorem monitor_cutoff_follows_clock s0 :
  (exists s,
      monitor lib world O root_dir time_interval s0
        = (s, Running) /\
      last_check_time s = clock world (readings s0) /\
      trace s = trace s0 ++ [EvTime (last_check_time s)]) /\
  (forall fuel s s',
      monitor lib world fuel root_dir time_interval s0
        = (s, Running) ->
      monitor lib world (S fuel) root_dir time_interval s0
        = (s', Running) ->
      last_check_time s' = clock world (readings s) /\
      exists found mid,
        trace s' =
        trace s ++
        [EvSleep (time_interval * 60); EvScan (last_check_time s) found] ++
        mid ++ [EvTime (last_check_time s')]) /\
  ((forall k, clock world k <= clock world (S k)) ->
   cutoff_never_decreases lib world root_dir time_interval s0) /\
  (forall fuel s,
      monitor lib world fuel root_dir time_interval s0
        = (s, Running) ->
      exists new_files s' o rest,
        get_new_files (time_ctime lib) root_dir (tree_at world (scans s))
          (last_check_time s) = Ok new_files /\
        monitor lib world (S fuel) root_dir time_interval s0
          = (s', o) /\
        trace s' =
        trace s ++
        EvSleep (time_interval * 60) ::
        EvScan (last_check_time s) (Ok new_files) :: rest /\
        forall key,
          key ∈ dom new_files ->
          exists q n ct,
            In (q, n) (Fs.rglob (tree_at world (scans s))) /\
            file_with_ctime n ct /\ last_check_time s < ct /\
            key = Fs.path_str root_dir q).
Proof.
  split; [|split; [|split]].
  - exists (started world s0). repeat split.
  - intros fuel s s' Hrun Hnext.
    rewrite (monitor_step _ _ _ Hrun) in Hnext.
    destruct (body_cases s)
      as (nf & _ & [(_ & Hb)|[(_ & _ & Hb)|(_ & e & _ & Hb)]]);
      rewrite Hb in Hnext; simpl in Hnext; try discriminate;
      injection Hnext as <-; simpl; (split; [reflexivity|]).
    + now exists (Ok nf), [EvLogInfo (new_files_message lib (dict_of s nf))].
    + now exists (Ok ∅),
        [EvSend (no_new_files_message time_interval);
         EvLogInfo "new files check, no new files were created"].
  - intros Hmono i j si sj Hij Hi Hj.
    apply monitor_running_state in Hi as (-> & _).
    apply monitor_running_state in Hj as (-> & _).
    apply clock_monotone_le; [exact Hmono|lia].
  - intros fuel s Hrun. rewrite (monitor_step _ _ _ Hrun).
    destruct (get_new_files_sound (time_ctime lib) root_dir (tree_at world (scans s))
                (last_check_time s)) as (new_files & Hscan & Hsound).
    destruct (body_cases s)
      as (nf & Hscan' & [(_ & Hb)|[(Hnf & _ & Hb)|(Hnf & e & _ & Hb)]]);
      rewrite Hb; simpl after_body;
      assert (new_files = nf) as -> by congruence; try subst nf;
      eexists _, _, _, _; (split; [exact Hscan|]); (split; [reflexivity|]);
      (split; [reflexivity|exact Hsound]).
Qed.

(** C6, as amended.  Of two successive turns of the loop, the second scans
    with the cutoff that the first assigned at its end: the reading of the
    clock taken after the first turn's scan.  A file the first turn
    reported, whose timestamp is not ahead of that reading (no skew between
    the file timestamps and the loop's clock) and which is still there
    with the same [st_ctime], is not reported by the second turn.  The
    proviso on [st_ctime] is needed: it is the time of the last change of
    the inode, which a write, a [chmod] or a rename in between moves
    forward. *)
Theorem monitor_next_turn_skips_reported fuel s0 s s' :
  monitor lib world fuel root_dir time_interval s0 = (s, Running) ->
  monitor lib world (S fuel) root_dir time_interval s0 = (s', Running) ->
  exists reported_first reported_next mid s'' o rest,
    trace s' =
      trace s ++
      [EvSleep (time_interval * 60);
       EvScan (last_check_time s) (Ok reported_first)] ++
      mid ++ [EvTime (last_check_time s')] /\
    last_check_time s' = clock world (readings s) /\
    monitor lib world (S (S fuel)) root_dir time_interval s0 = (s'', o) /\
    trace s'' =
      trace s' ++
      EvSleep (time_interval * 60) ::
      EvScan (last_check_time s') (Ok reported_next) :: rest /\
    get_new_files (time_ctime lib) root_dir (tree_at world (scans s))
      (last_check_time s) = Ok reported_first /\
    get_new_files (time_ctime lib) root_dir (tree_at world (scans s'))
      (last_check_time s') = Ok reported_next /\
    forall p n ct,
      Fs.wf (tree_at world (scans s')) = true ->
      p <> [] ->
      Fs.lookup_path (tree_at world (scans s)) p = Some n ->
      file_with_ctime n ct ->
      Fs.path_str root_dir p ∈ dom reported_first ->
      ct <= clock world (readings s) ->
      Fs.lookup_path (tree_at world (scans s')) p = Some n ->
      Fs.path_str root_dir p ∉ dom reported_next.
Proof.
  intros Hrun Hnext.
  assert (exists first mid,
             scan_of s = Ok first /\
             trace s' =
               trace s ++
               [EvSleep (time_interval * 60);
                EvScan (last_check_time s) (Ok first)] ++
               mid ++ [EvTime (last_check_time s')] /\
             last_check_time s' = clock world (readings s))
    as (first & mid & Hfirst & Htrace & Hcut).
  { rewrite (monitor_step _ _ _ Hrun) in Hnext.
    destruct (body_cases s)
      as (nf & Hscan & [(_ & Hb)|[(-> & _ & Hb)|(_ & e & _ & Hb)]]);
      rewrite Hb in Hnext; simpl in Hnext; try discriminate;
      injection Hnext as <-; simpl.
    - now exists nf, [EvLogInfo (new_files_message lib (dict_of s nf))].
    - now exists ∅,
        [EvSend (no_new_files_message time_interval);
         EvLogInfo "new files check, no new files were created"]. }
  assert (exists next s'' o rest,
             scan_of s' = Ok next /\
             run (S (S fuel)) s0 = (s'', o) /\
             trace s'' =
               trace s' ++
               EvSleep (time_interval * 60) ::
               EvScan (last_check_time s') (Ok next) :: rest)
    as (next & s'' & o & rest & Hnextscan & Hrun'' & Htrace'').
  { rewrite (monitor_step _ _ _ Hnext).
    destruct (body_cases s')
      as (nf & Hscan & [(_ & Hb)|[(-> & _ & Hb)|(-> & e & _ & Hb)]]);
      rewrite Hb; simpl after_body; eexists _, _, _, _;
      (split; [exact Hscan|]); split; reflexivity. }
  exists first, next, mid, s'', o, rest.
  repeat (split; [assumption|]).
  intros p n ct Hwf Hp _ Hf _ Hskew Hstill Hin.
  destruct (get_new_files_lookup (time_ctime lib) root_dir (last_check_time s') _ Hwf)
    as (next' & Hnext' & Hkeys).
  assert (next' = next) as -> by congruence.
  apply elem_of_dom in Hin as [v Hv].
  apply Hkeys in Hv as (p' & n' & ct' & Hp' & Hl' & Hf' & Hgt & Hk & _).
  assert (p = p') as <- by eauto using FsFacts.path_str_inj.
  assert (n' = n) as -> by congruence.
  rewrite (file_with_ctime_fun _ _ _ Hf Hf') in Hskew. lia.
Qed.

(** C8.  The call of [monitor] never returns: after any number of turns it
    is still in its loop or has raised.  Every turn starts by sleeping
    [time_interval * 60] seconds and scans only then, and at its end the
    loop is entered again, unless the messenger raised.  With a messenger
    that does not raise, the call is still in its loop after any number of
    turns. *)
Theorem monitor_never_returns s0 :
  (forall fuel,
      snd (monitor lib world fuel root_dir time_interval s0)
      <> Returned) /\
  (forall fuel s,
      monitor lib world fuel root_dir time_interval s0
        = (s, Running) ->
      exists s' o found rest,
        monitor lib world (S fuel) root_dir time_interval s0
          = (s', o) /\
        trace s' =
        trace s ++
        EvSleep (time_interval * 60) :: EvScan (last_check_time s) found :: rest /\
        (o = Running \/
         exists e, o = Raised e /\ send_raises world (sends s) = Some e)) /\
  ((forall k, send_raises world k = None) ->
   forall fuel,
   exists s,
     monitor lib world fuel root_dir time_interval s0
     = (s, Running)).
Proof.
  assert (forall fuel s,
      run fuel s0 = (s, Running) ->
      exists s' o found rest,
        run (S fuel) s0 = (s', o) /\
        trace s' =
        trace s ++
        EvSleep (time_interval * 60) :: EvScan (last_check_time s) found :: rest /\
        (o = Running \/
         exists e, o = Raised e /\ send_raises world (sends s) = Some e)) as Hturn.
  { intros fuel s Hrun. rewrite (monitor_step _ _ _ Hrun).
    destruct (body_cases s)
      as (nf & _ & [(_ & Hb)|[(_ & _ & Hb)|(_ & e & Hsend & Hb)]]);
      rewrite Hb; simpl after_body; eexists _, _, _, _;
      (split; [reflexivity|]); (split; [reflexivity|]); eauto. }
  split; [|split; [exact Hturn|]].
  - induction fuel as [|fuel IH]; [rewrite monitor_zero; discriminate|].
    destruct (run fuel s0) as [s o] eqn:Hrun. destruct o.
    + now contradict IH.
    + rewrite monitor_succ, Hrun. discriminate.
    + destruct (Hturn _ _ Hrun) as (s' & o & _ & _ & -> & _ & [->|(e & -> & _)]);
        discriminate.
  - intros Hsend. induction fuel as [|fuel [s Hrun]].
    + eexists. apply monitor_zero.
    + destruct (Hturn _ _ Hrun) as (s' & o & _ & _ & Hnext & _ & [->|(e & _ & He)]).
      * eauto.
      * rewrite Hsend in He. discriminate.
Qed.

(** C10.  In a turn whose scan result is empty, the cutoff is assigned
    only after the call of the messenger has returned: the clock is read,
    and [last_check_time] updated, after the send and the log entry.  If
    the messenger raises, the exception leaves the loop, the clock is not
    read and [last_check_time] keeps the value it had at the start of the
    turn. *)
Theorem monitor_cutoff_kept_when_send_raises fuel s0 s :
  monitor lib world fuel root_dir time_interval s0
    = (s, Running) ->
  get_new_files (time_ctime lib) root_dir (tree_at world (scans s))
      (last_check_time s) = Ok ∅ ->
  (forall e,
      send_raises world (sends s) = Some e ->
      exists s',
        monitor lib world (S fuel) root_dir time_interval s0
          = (s', Raised e) /\
        last_check_time s' = last_check_time s /\
        readings s' = readings s /\
        trace s' =
        trace s ++
        [EvSleep (time_interval * 60); EvScan (last_check_time s) (Ok ∅);
         EvSend (no_new_files_message time_interval)]) /\
  (send_raises world (sends s) = None ->
   exists s',
     monitor lib world (S fuel) root_dir time_interval s0
       = (s', Running) /\
     last_check_time s' = clock world (readings s) /\
     trace s' =
     trace s ++
     [EvSleep (time_interval * 60); EvScan (last_check_time s) (Ok ∅);
      EvSend (no_new_files_message time_interval);
      EvLogInfo "new files check, no new files were created";
      EvTime (last_check_time s')]).
Proof.
  intros Hrun Hscan. rewrite (monitor_step _ _ _ Hrun). split.
  - intros e Hsend. rewrite (body_send_raises _ _ Hscan Hsend).
    eexists. repeat split.
  - intros Hsend. rewrite (body_no_new_files _ Hscan Hsend).
    eexists. repeat split.
Qed.

End MonitorFacts.

Lemma monitor_notifies_iff_nothing_new_witness :
  (exists s',
      monitor Sample.lib Sample.world_quiet 1 "/srv" 15 Sample.s_init
        = (s', Running) /\
      trace s' =
        [EvTime 100; EvSleep 900; EvScan 100 (Ok ∅);
         EvSend "No new files were created in the last 15 minutes";
         EvLogInfo "new files check, no new files were created";
         EvTime 110]) /\
  (exists s' new_files,
      monitor Sample.lib Sample.world_two_new 1 "/srv" 15 Sample.s_init
        = (s', Running) /\
      trace s' =
        [EvTime 100; EvSleep 900; EvScan 100 (Ok new_files);
         EvLogInfo
           ("new files check, following files were created: " +:+
            MiniJson.dumps (Some 4%nat)
              (JDict [ ("/srv/b.txt", JStr "t=105");
                       ("/srv/a.txt", JStr "t=106") ]));
         EvTime 110]).
Proof.
  split.
  - destruct (monitor_notifies_iff_nothing_new Sample.lib Sample.world_quiet
                "/srv" 15 ltac:(lia) 0 Sample.s_init _ eq_refl)
      as (new_files & s' & o & evs & Hscan & Hrun & Htrace & _ & _ & Hempty).
    injection Hscan as <-.
    destruct (Hempty eq_refl) as (rest & -> & Hreturns & _).
    destruct (Hreturns eq_refl) as [-> ->].
    exists s'. split; [exact Hrun|exact Htrace].
  - destruct (monitor_notifies_iff_nothing_new Sample.lib Sample.world_two_new
                "/srv" 15 ltac:(lia) 0 Sample.s_init _ eq_refl)
      as (new_files & s' & o & evs & Hscan & Hrun & Htrace & _ & Hnew & _).
    change (get_new_files Sample.render "/srv" Sample.tree_unsorted 100
            = Ok new_files) in Hscan.
    destruct (get_new_files_lookup Sample.render "/srv" 100 Sample.tree_unsorted
                eq_refl) as (m & Hm & Hkeys).
    assert (m = new_files) as -> by congruence.
    assert (new_files !! "/srv/b.txt" = Some "t=105") as Hb.
    { apply Hkeys. exists ["b.txt"], (Fs.File 105), 105.
      split; [discriminate|]. split; [reflexivity|]. split; [constructor|].
      split; [lia|]. split; reflexivity. }
    assert (new_files !! "/srv/a.txt" = Some "t=106") as Ha.
    { apply Hkeys. exists ["a.txt"], (Fs.File 106), 106.
      split; [discriminate|]. split; [reflexivity|]. split; [constructor|].
      split; [lia|]. split; reflexivity. }
    destruct Hnew as (items & qs & Hfst & Hsub & _ & Hin & -> & ->).
    { intros ->. rewrite lookup_empty in Hb. discriminate. }
    assert (In "/srv/b.txt" (map fst items)) as Hinb
      by (apply in_map_iff; exists ("/srv/b.txt", "t=105"); split;
          [reflexivity|now apply Hin]).
    assert (In "/srv/a.txt" (map fst items)) as Hina
      by (apply in_map_iff; exists ("/srv/a.txt", "t=106"); split;
          [reflexivity|now apply Hin]).
    rewrite Hfst in Hinb, Hina.
    change (map fst (Fs.rglob Sample.tree_unsorted))
      with [["b.txt"]; ["a.txt"]] in Hsub.
    assert (qs = [["b.txt"]; ["a.txt"]]) as ->.
    { apply sublist_cons_r in Hsub as [Hsub|(qs' & -> & Hsub)];
        apply sublist_cons_r in Hsub as [Hsub|(qs'' & -> & Hsub)];
        apply sublist_nil_r in Hsub as ->; [exfalso..|reflexivity];
        vm_compute in Hinb, Hina;
        repeat match goal with
               | H : _ \/ _ |- _ => destruct H as [H|H]
               | H : False |- _ => destruct H
               | H : @eq string _ _ |- _ => discriminate H
               end. }
    assert (items = [("/srv/b.txt", "t=105"); ("/srv/a.txt", "t=106")]) as ->.
    { change (map (Fs.path_str "/srv") [["b.txt"]; ["a.txt"]])
        with ["/srv/b.txt"; "/srv/a.txt"] in Hfst.
      destruct items as [|[k1 v1] [|[k2 v2] [|? ?]]]; try discriminate Hfst.
      simpl in Hfst. injection Hfst as -> ->.
      assert (new_files !! "/srv/b.txt" = Some v1) as Hv1
        by (apply Hin; now left).
      assert (new_files !! "/srv/a.txt" = Some v2) as Hv2
        by (apply Hin; right; now left).
      rewrite Hb in Hv1. rewrite Ha in Hv2.
      injection Hv1 as <-. injection Hv2 as <-. reflexivity. }
    exists s', new_files. split; [exact Hrun|exact Htrace].
Defined.

Lemma monitor_cutoff_follows_clock_witness :
  cutoff_never_decreases Sample.lib Sample.world_calm "/srv" 15
    Sample.s_init.
Proof.
  apply (monitor_cutoff_follows_clock Sample.lib
           Sample.world_calm "/srv" 15 ltac:(lia) Sample.s_init).
  intros k. simpl. lia.
Defined.

(** C3, as first stated, fails: when the clock is set back between two
    readings, the cutoff after the first turn (50) is below the cutoff the
    loop started with (100). *)
Lemma monitor_cutoff_can_decrease :
  ~ cutoff_never_decreases Sample.lib Sample.world_set_back
      "/srv" 15 Sample.s_init.
Proof.
  intros Hclaim.
  assert (exists s1,
             monitor Sample.lib Sample.world_set_back 1 "/srv" 15
               Sample.s_init = (s1, Running) /\
             last_check_time s1 = 50) as (s1 & Hrun1 & Hcut1).
  { eexists. split; [vm_compute; reflexivity|reflexivity]. }
  pose proof (Hclaim 0%nat 1%nat _ s1 (le_S _ _ (le_n _)) eq_refl Hrun1) as Hle.
  rewrite Hcut1 in Hle. simpl in Hle. lia.
Qed.

Lemma monitor_next_turn_skips_reported_witness :
  exists first next,
    get_new_files Sample.render "/srv" Sample.tree_day1 100 = Ok first /\
    get_new_files Sample.render "/srv" Sample.tree_day2 110 = Ok next /\
    "/srv/c.txt" ∈ dom first /\
    "/srv/c.txt" ∉ dom next.
Proof.
  assert (exists s',
             monitor Sample.lib Sample.world_calm 1 "/srv" 15 Sample.s_init
               = (s', Running) /\
             scans s' = 1%nat /\ last_check_time s' = 110)
    as (s' & Hrun' & Hs & Hl).
  { eexists. split; [vm_compute; reflexivity|]. repeat split. }
  destruct (monitor_next_turn_skips_reported Sample.lib
              Sample.world_calm "/srv" 15 ltac:(lia) 0 Sample.s_init _ _ eq_refl Hrun')
    as (first & next & _ & _ & _ & _ & _ & _ & _ & _ & Hfirst & Hnext & Hskip).
  rewrite Hs, Hl in *.
  exists first, next. split; [exact Hfirst|]. split; [exact Hnext|].
  assert ("/srv/c.txt" ∈ dom first) as Hin.
  { destruct (get_new_files_lookup Sample.render "/srv" 100 Sample.tree_day1 eq_refl)
      as (m & Hm & Hkeys).
    change (get_new_files Sample.render "/srv" Sample.tree_day1 100 = Ok first)
      in Hfirst.
    assert (m = first) as -> by congruence.
    apply elem_of_dom. exists (Sample.render 105). apply Hkeys.
    exists ["c.txt"], (Fs.File 105), 105.
    split; [discriminate|]. split; [reflexivity|]. split; [constructor|].
    split; [lia|]. split; reflexivity. }
  split; [exact Hin|].
  apply (Hskip ["c.txt"] (Fs.File 105) 105);
    [reflexivity|discriminate|reflexivity|constructor|exact Hin|simpl; lia
    |reflexivity].
Defined.

(** C6, as first stated, fails: a file that is written to between two
    scans has a new [st_ctime].  [c.txt], created at 105 and reported by
    the first turn, is written to at 115 and reported again by the second
    turn, although the clock goes forward and no timestamp is ahead of the
    reading that closes its turn. *)
Lemma monitor_reports_rewritten_file_again :
  ~ next_turn_never_repeats Sample.lib Sample.world_touched "/srv" 15
      Sample.s_init.
Proof.
  intros Hclaim.
  assert (exists s1,
             monitor Sample.lib Sample.world_touched 1 "/srv" 15 Sample.s_init
               = (s1, Running) /\
             scans s1 = 1%nat /\ last_check_time s1 = 110 /\
             readings s1 = 2%nat)
    as (s1 & Hrun1 & Hs1 & Hl1 & Hr1).
  { eexists. split; [vm_compute; reflexivity|]. repeat split. }
  destruct (get_new_files_lookup Sample.render "/srv" 100 Sample.tree_written
              eq_refl) as (first & Hfirst & Hk1).
  destruct (get_new_files_lookup Sample.render "/srv" 110 Sample.tree_rewritten
              eq_refl) as (next & Hnext & Hk2).
  assert (forall t p n ct,
             Fs.lookup_path (Fs.Dir 1 [("c.txt", Fs.File t)]) p = Some n ->
             file_with_ctime n ct -> ct = t) as Honly.
  { intros t [|x [|y p]] n ct Hl Hf; simpl in Hl.
    - injection Hl as <-. inversion Hf.
    - destruct (decide ("c.txt" = x)); [|discriminate].
      injection Hl as <-. now inversion Hf.
    - destruct (decide ("c.txt" = x)); discriminate. }
  apply (Hclaim ltac:(intros k; simpl; lia) 0%nat
           (started Sample.world_touched Sample.s_init) s1 first next
           eq_refl Hrun1) with (key := "/srv/c.txt").
  - intros p n ct Hl Hf.
    change (Fs.lookup_path (Fs.Dir 1 [("c.txt", Fs.File 105)]) p = Some n) in Hl.
    rewrite (Honly _ _ _ _ Hl Hf). simpl. lia.
  - rewrite Hs1, Hr1. intros p n ct Hl Hf.
    change (Fs.lookup_path (Fs.Dir 1 [("c.txt", Fs.File 115)]) p = Some n) in Hl.
    rewrite (Honly _ _ _ _ Hl Hf). simpl. lia.
  - exact Hfirst.
  - rewrite Hs1, Hl1. exact Hnext.
  - apply elem_of_dom. exists (Sample.render 105). apply Hk1.
    exists ["c.txt"], (Fs.File 105), 105.
    split; [discriminate|]. split; [reflexivity|]. split; [constructor|].
    split; [lia|]. split; reflexivity.
  - apply elem_of_dom. exists (Sample.render 115). apply Hk2.
    exists ["c.txt"], (Fs.File 115), 115.
    split; [discriminate|]. split; [reflexivity|]. split; [constructor|].
    split; [lia|]. split; reflexivity.
Qed.

Lemma monitor_never_returns_witness :
  exists s,
    monitor Sample.lib Sample.world_calm 3 "/srv" 15
      Sample.s_init = (s, Running).
Proof.
  apply (monitor_never_returns Sample.lib Sample.world_calm
           "/srv" 15 ltac:(lia) Sample.s_init).
  reflexivity.
Defined.

Lemma monitor_cutoff_kept_when_send_raises_witness :
  exists s',
    monitor Sample.lib Sample.world_smtp_down 1 "/srv" 15
      Sample.s_init = (s', Raised SMTPException) /\
    last_check_time s' = 100.
Proof.
  destruct (monitor_cutoff_kept_when_send_raises Sample.lib
              Sample.world_smtp_down "/srv" 15 ltac:(lia) 0 Sample.s_init _
              eq_refl eq_refl)
    as [Hraise _].
  destruct (Hraise SMTPException eq_refl) as (s' & Hrun & Hcut & _).
  exists s'. split; [exact Hrun|exact Hcut].
Defined.

(** ** The configuration loader *)

Section ConfigFacts.

Context {K : Type} `{Countable K}.
Variable lib : library.
Variable host : platform K.

Abbreviation cfg_path := (config_path host).
Abbreviation cfg := (default_config host).
Abbreviation cfg_text := (default_text lib host).
Abbreviation open_r := (open_read host).
Abbreviation load := (json_load lib).
Abbreviation create := (create_default_config lib host).
Abbreviation read := (read_config lib host).
Abbreviation writable := (default_writable host).
Abbreviation round_trips := (default_round_trips lib host).

Lemma create_default_config_ok files :
  writable files ->
  create files = (<[resolve host cfg_path := Text cfg_text]> files, Ok cfg_path).
Proof.
  intros Hw. unfold create_default_config, open_write.
  destruct (files !! resolve host cfg_path) as [[content|e]|] eqn:Hl; try reflexivity.
  now destruct (Hw e).
Qed.

Lemma create_default_config_blocked files e :
  files !! resolve host cfg_path = Some (Blocked e) ->
  create files = (files, Raise e).
Proof. intros Hl. unfold create_default_config, open_write. now rewrite Hl. Qed.

(** Reading a file that holds the serialised default back. *)
Lemma read_back_default files :
  round_trips ->
  files !! resolve host cfg_path = Some (Text cfg_text) ->
  result_bind (open_r files cfg_path) load = Ok cfg.
Proof.
  intros Hrt Hl. unfold open_read. rewrite Hl. simpl. unfold json_load.
  now rewrite Hrt.
Qed.

(** What [read_config] does when the requested file is missing and the
    default can be written. *)
Lemma read_config_missing files path_to_config :
  open_r files path_to_config = Raise FileNotFoundError ->
  writable files ->
  read files path_to_config =
  (<[resolve host cfg_path := Text cfg_text]> files,
   [config_not_found_message path_to_config],
   result_bind
     (open_r (<[resolve host cfg_path := Text cfg_text]> files) cfg_path) load).
Proof.
  intros Hopen Hw. unfold read_config. rewrite Hopen. simpl result_bind.
  now rewrite create_default_config_ok.
Qed.

(** C5.  [read_config] recovers from exactly one failure.  When opening the
    requested file raises [FileNotFoundError], the default configuration is
    written to disk, read back and returned (given that the default file
    can be written and that [json] reads back what it wrote; an exception
    raised while writing the default is not caught either).  When opening
    raises anything else, or when the content is not valid JSON, the
    exception leaves [read_config] and nothing is written. *)
Theorem read_config_recovers_only_missing_file files path_to_config :
  (open_read host files path_to_config = Raise FileNotFoundError ->
   default_writable host files ->
   default_round_trips lib host ->
   read_config lib host files path_to_config =
   (<[resolve host (config_path host) := Text (default_text lib host)]> files,
    [config_not_found_message path_to_config],
    Ok (default_config host))) /\
  (forall e,
      open_read host files path_to_config = Raise FileNotFoundError ->
      files !! resolve host (config_path host) = Some (Blocked e) ->
      read_config lib host files path_to_config
        = (files, [config_not_found_message path_to_config], Raise e)) /\
  (forall e,
      e <> FileNotFoundError ->
      open_read host files path_to_config = Raise e ->
      read_config lib host files path_to_config = (files, [], Raise e)) /\
  (forall content,
      open_read host files path_to_config = Ok content ->
      json_loads lib content = None ->
      read_config lib host files path_to_config
        = (files, [], Raise JSONDecodeError)) /\
  (forall content config,
      open_read host files path_to_config = Ok content ->
      json_loads lib content = Some config ->
      read_config lib host files path_to_config = (files, [], Ok config)).
Proof.
  repeat split.
  - intros Hopen Hw Hrt. rewrite (read_config_missing _ _ Hopen Hw).
    rewrite (read_back_default _ Hrt); [reflexivity|apply lookup_insert_eq].
  - intros e Hopen Hblocked. unfold read_config. rewrite Hopen. simpl result_bind.
    now rewrite (create_default_config_blocked _ _ Hblocked).
  - intros e Hne Hopen. unfold read_config. rewrite Hopen. simpl.
    destruct e; congruence.
  - intros content Hopen Hbad. unfold read_config. rewrite Hopen. simpl.
    unfold json_load. now rewrite Hbad.
  - intros content config Hopen Hgood. unfold read_config. rewrite Hopen. simpl.
    unfold json_load. now rewrite Hgood.
Qed.

(** C7.  The default configuration holds, in this order, the working
    directory as [directory_of_interest], [check_time_interval] equal to 15,
    a log file path in the working directory, and the three mail fields,
    each taken from its environment variable when that is set and from its
    placeholder otherwise.  [create_default_config] writes it to
    [config.json] in the working directory as [json.dump] renders it with
    [indent=4], keys in that order, and leaves every other file alone; a
    later [read_config] of that file returns the very values written
    (given that [json] reads back what it wrote). *)
Theorem create_default_config_contents files :
  (exists fields,
      default_config host = JDict fields /\
      map fst fields =
        ["directory_of_interest"; "check_time_interval"; "log_file_location";
         "email_receiver"; "email_sender"; "email_password"] /\
      dict_get "directory_of_interest" fields = Some (JStr (cwd host)) /\
      dict_get "check_time_interval" fields = Some (JInt 15) /\
      dict_get "log_file_location" fields
        = Some (JStr (Fs.path_str (cwd host) ["monitor.txt"])) /\
      dict_get "email_receiver" fields
        = Some (JStr (default "reciever@gmail.com"
                        (environ host !! "LOGGER_EMAIL_RECEIVER"))) /\
      dict_get "email_sender" fields
        = Some (JStr (default "sender@gmail.com"
                        (environ host !! "LOGGER_EMAIL_SENDER"))) /\
      dict_get "email_password" fields
        = Some (JStr (default "default_password"
                        (environ host !! "LOGGER_EMAIL_PASSWORD")))) /\
  (files !! resolve host (config_path host) = None ->
   exists files',
     create_default_config lib host files = (files', Ok (config_path host)) /\
     files' !! resolve host (config_path host)
       = Some (Text (json_dumps lib (Some 4%nat) (default_config host))) /\
     (forall k, k <> resolve host (config_path host) -> files' !! k = files !! k) /\
     (default_round_trips lib host ->
      forall path_to_config,
        resolve host path_to_config = resolve host (config_path host) ->
        read_config lib host files' path_to_config
          = (files', [], Ok (default_config host)))).
Proof.
  split.
  - eexists. split; [reflexivity|]. unfold getenv.
    repeat split; simpl;
      try destruct (environ host !! "LOGGER_EMAIL_RECEIVER");
      try destruct (environ host !! "LOGGER_EMAIL_SENDER");
      try destruct (environ host !! "LOGGER_EMAIL_PASSWORD"); reflexivity.
  - intros Hnone. eexists. split.
    { apply create_default_config_ok. intros e. rewrite Hnone. discriminate. }
    split; [apply lookup_insert_eq|]. split.
    + intros k Hk. now apply lookup_insert_ne.
    + intros Hrt p Hp. unfold read_config, open_read. rewrite Hp.
      rewrite lookup_insert_eq. simpl. unfold json_load. now rewrite Hrt.
Qed.


End ConfigFacts.

Lemma read_config_recovers_only_missing_file_witness :
  read_config Sample.lib Sample.home ∅ "config.json"
  = ({[ "/home/u/config.json" := Text (default_text Sample.lib Sample.home) ]},
     [config_not_found_message "config.json"],
     Ok (default_config Sample.home)).
Proof.
  apply (read_config_recovers_only_missing_file Sample.lib Sample.home ∅
           "config.json").
  - reflexivity.
  - intros e. rewrite lookup_empty. discriminate.
  - vm_compute. reflexivity.
Defined.

Lemma create_default_config_contents_witness :
  exists files',
    create_default_config Sample.lib Sample.home Sample.other_files
      = (files', Ok "/home/u/config.json") /\
    read_config Sample.lib Sample.home files' "config.json"
      = (files', [], Ok (default_config Sample.home)).
Proof.
  destruct (create_default_config_contents Sample.lib Sample.home
              Sample.other_files) as [_ Hcreate].
  destruct Hcreate as (files' & Hrun & _ & _ & Hread); [reflexivity|].
  exists files'. split; [exact Hrun|].
  apply Hread; [vm_compute; reflexivity|reflexivity].
Defined.



(** ** The JSON codec reads back the default configuration *)

Module MiniJsonFacts.
Import MiniJson.

Lemma list_ascii_app a b :
  list_ascii_of_string (a +:+ b) = list_ascii_of_string a ++ list_ascii_of_string b.
Proof.
  induction a as [|c a IH]; [reflexivity|].
  change (String c a +:+ b) with (String c (a +:+ b)). simpl. now rewrite IH.
Qed.

(** Reading an escaped character gives the character back. *)
Lemma string_body_escape_char c rest acc :
  string_body (escape_char c ++ rest) acc = string_body rest (c :: acc).
Proof. destruct c as [[] [] [] [] [] [] [] []]; reflexivity. Qed.

Lemma string_body_escape s :
  forall rest acc,
    string_body (escape_chars s ++ dquote :: rest) acc =
    Some (string_of_list_ascii (rev acc ++ list_ascii_of_string s), rest).
Proof.
  induction s as [|c s IH]; intros rest acc.
  - simpl. now rewrite app_nil_r.
  - simpl escape_chars. rewrite <- app_assoc, string_body_escape_char, IH.
    simpl. now rewrite <- app_assoc.
Qed.

(** A quoted string, read from after its opening quote. *)
Lemma string_body_quoted s rest :
  string_body (escape_chars s ++ dquote :: rest) [] = Some (s, rest).
Proof.
  rewrite string_body_escape. simpl. now rewrite string_of_list_ascii_of_string.
Qed.

Lemma quote_chars s :
  list_ascii_of_string (quote s) = dquote :: escape_chars s ++ [dquote].
Proof.
  unfold quote, escape, str1. simpl. f_equal.
  now rewrite list_ascii_app, list_ascii_of_string_of_list_ascii.
Qed.

#[local] Arguments value : simpl never.
#[local] Arguments items : simpl never.
#[local] Arguments members : simpl never.
#[local] Arguments string_body : simpl never.

Lemma value_unfold fuel cs :
  value (S fuel) (dquote :: cs) =
  match string_body cs [] with
  | Some (s, rest) => Some (JStr s, rest)
  | None => None
  end.
Proof. reflexivity. Qed.

(** A string value, after the blank that follows the colon. *)
Lemma value_string fuel s rest :
  value (S fuel) (space :: dquote :: escape_chars s ++ dquote :: rest)
  = Some (JStr s, rest).
Proof.
  change (value (S fuel) (space :: dquote :: escape_chars s ++ dquote :: rest))
    with (value (S fuel) (dquote :: escape_chars s ++ dquote :: rest)).
  now rewrite value_unfold, string_body_quoted.
Qed.

Lemma value_fifteen fuel rest :
  value (S fuel) (space :: "1"%char :: "5"%char :: ","%char :: rest)
  = Some (JInt 15, ","%char :: rest).
Proof. reflexivity. Qed.

Lemma members_unfold fuel count k rest :
  members (S fuel) (S count)
    (newline :: space :: space :: space :: space :: dquote ::
     escape_chars k ++ dquote :: ":"%char :: rest) =
  match value fuel rest with
  | Some (v, rest1) =>
      match skip_ws rest1 with
      | d :: rest2 =>
          if Ascii.eqb d "}"%char then Some ([(k, v)], rest2)
          else if Ascii.eqb d ","%char then
            match members fuel count rest2 with
            | Some (l, rest3) => Some ((k, v) :: l, rest3)
            | None => None
            end
          else None
      | [] => None
      end
  | None => None
  end.
Proof.
  change (members (S fuel) (S count)
            (newline :: space :: space :: space :: space :: dquote ::
             escape_chars k ++ dquote :: ":"%char :: rest))
    with (match string_body (escape_chars k ++ dquote :: ":"%char :: rest) [] with
          | Some (k', cs2) =>
              match skip_ws cs2 with
              | colon :: cs3 =>
                  if Ascii.eqb colon ":"%char then
                    match value fuel cs3 with
                    | Some (v, rest1) =>
                        match skip_ws rest1 with
                        | d :: rest2 =>
                            if Ascii.eqb d "}"%char then Some ([(k', v)], rest2)
                            else if Ascii.eqb d ","%char then
                              match members fuel count rest2 with
                              | Some (l, rest3) => Some ((k', v) :: l, rest3)
                              | None => None
                              end
                            else None
                        | [] => None
                        end
                    | None => None
                    end
                  else None
              | [] => None
              end
          | None => None
          end).
  rewrite string_body_quoted. reflexivity.
Qed.

Lemma member_string_more fuel count k s rest :
  members (S (S fuel)) (S count)
    (newline :: space :: space :: space :: space :: dquote ::
     escape_chars k ++ dquote :: ":"%char :: space :: dquote ::
     escape_chars s ++ dquote :: ","%char :: rest) =
  match members (S fuel) count rest with
  | Some (l, rest') => Some ((k, JStr s) :: l, rest')
  | None => None
  end.
Proof. now rewrite members_unfold, value_string. Qed.

Lemma member_fifteen_more fuel count k rest :
  members (S (S fuel)) (S count)
    (newline :: space :: space :: space :: space :: dquote ::
     escape_chars k ++ dquote :: ":"%char :: space ::
     "1"%char :: "5"%char :: ","%char :: rest) =
  match members (S fuel) count rest with
  | Some (l, rest') => Some ((k, JInt 15) :: l, rest')
  | None => None
  end.
Proof. now rewrite members_unfold, value_fifteen. Qed.

Lemma member_string_last fuel count k s rest :
  members (S (S fuel)) (S count)
    (newline :: space :: space :: space :: space :: dquote ::
     escape_chars k ++ dquote :: ":"%char :: space :: dquote ::
     escape_chars s ++ dquote :: newline :: "}"%char :: rest) =
  Some ([(k, JStr s)], rest).
Proof. now rewrite members_unfold, value_string. Qed.

Lemma value_object fuel rest :
  value (S fuel)
    ("{"%char :: newline :: space :: space :: space :: space :: dquote :: rest) =
  match
    members fuel fuel
      (newline :: space :: space :: space :: space :: dquote :: rest)
  with
  | Some (l, rest') => Some (JDict l, rest')
  | None => None
  end.
Proof. reflexivity. Qed.

Ltac eval_closed_chars :=
  repeat match goal with
  | |- context [list_ascii_of_string ?x] =>
      let v := eval vm_compute in (list_ascii_of_string x) in
      change (list_ascii_of_string x) with v
  end.

(** With this codec, [json.load] gives back every default configuration
    from what [json.dump] writes for it. *)
Lemma reads_back_default {K : Type} (host : platform K) :
  default_round_trips Sample.lib host.
Proof.
  unfold default_round_trips, default_text, default_config.
  generalize (getenv host "LOGGER_EMAIL_PASSWORD" "default_password") as e.
  generalize (getenv host "LOGGER_EMAIL_SENDER" "sender@gmail.com") as d.
  generalize (getenv host "LOGGER_EMAIL_RECEIVER" "reciever@gmail.com") as c.
  generalize (Fs.path_str (cwd host) ["monitor.txt"]) as b.
  generalize (cwd host) as a. intros a b c d e.
  change (json_loads Sample.lib) with loads.
  change (json_dumps Sample.lib) with dumps.
  unfold loads, dumps. cbn [dumps_at String.concat].
  rewrite !list_ascii_app, !quote_chars.
  eval_closed_chars. repeat (rewrite <- !app_assoc; cbn [app]). cbn [length].
  match goal with |- context [length ?l] => generalize (length l) end.
  intros n.
  rewrite value_object, member_string_more, member_fifteen_more.
  rewrite !member_string_more, member_string_last.
  reflexivity.
Qed.

End MiniJsonFacts.

(** * Further properties of the scan *)

Section ScanMore.

Variable time_ctime : Z -> string.
Variable root_dir : string.

(** X2.  Raising the cutoff only removes entries: what a scan of a
    well-formed tree reports for a later cutoff, it reports, with the same
    rendering, for every earlier one. *)
Theorem get_new_files_antitone (tree : Fs.node) (earlier later : Z) :
  Fs.wf tree = true ->
  earlier <= later ->
  exists more fewer,
    get_new_files time_ctime root_dir tree earlier = Ok more /\
    get_new_files time_ctime root_dir tree later = Ok fewer /\
    fewer ⊆ more.
Proof.
  intros Hwf Hle.
  destruct (get_new_files_lookup time_ctime root_dir earlier tree Hwf)
    as (more & Hmore & Hkm).
  destruct (get_new_files_lookup time_ctime root_dir later tree Hwf)
    as (fewer & Hfewer & Hkf).
  exists more, fewer. split; [exact Hmore|]. split; [exact Hfewer|].
  apply map_subseteq_spec. intros key v Hv.
  apply Hkf in Hv as (p & n & ct & Hp & Hl & Hf & Hgt & -> & ->).
  apply Hkm. exists p, n, ct. repeat split; try assumption. lia.
Qed.

(** X3.  The result depends only on which paths hold a file and with which
    timestamp: two well-formed trees that agree on that give the same
    mapping, whatever the order in which their directories list their
    entries and whatever else they hold. *)
Theorem get_new_files_same_files (tree1 tree2 : Fs.node) (cutoff : Z) :
  Fs.wf tree1 = true ->
  Fs.wf tree2 = true ->
  (forall p ct,
      p <> [] ->
      (exists n, Fs.lookup_path tree1 p = Some n /\ file_with_ctime n ct) <->
      (exists n, Fs.lookup_path tree2 p = Some n /\ file_with_ctime n ct)) ->
  get_new_files time_ctime root_dir tree1 cutoff
  = get_new_files time_ctime root_dir tree2 cutoff.
Proof.
  intros Hwf1 Hwf2 Hsame.
  destruct (get_new_files_lookup time_ctime root_dir cutoff tree1 Hwf1)
    as (m1 & -> & Hk1).
  destruct (get_new_files_lookup time_ctime root_dir cutoff tree2 Hwf2)
    as (m2 & -> & Hk2).
  f_equal. apply map_eq. intros key.
  apply option_eq. intros v. rewrite Hk1, Hk2. split.
  - intros (p & n & ct & Hp & Hl & Hf & Hrest).
    destruct (proj1 (Hsame p ct Hp)) as (n' & Hl' & Hf'); [eauto|].
    exists p, n', ct. tauto.
  - intros (p & n & ct & Hp & Hl & Hf & Hrest).
    destruct (proj2 (Hsame p ct Hp)) as (n' & Hl' & Hf'); [eauto|].
    exists p, n', ct. tauto.
Qed.

End ScanMore.

(** * Further properties of the monitor loop *)

(** What the scan of a well-formed tree says about one path. *)
Lemma get_new_files_at_path time_ctime root_dir tree cutoff p :
  Fs.wf tree = true ->
  p <> [] ->
  Forall (fun k => Fs.slash_free k = true) p ->
  exists found,
    get_new_files time_ctime root_dir tree cutoff = Ok found /\
    found !! Fs.path_str root_dir p =
    match Fs.lookup_path tree p with
    | Some n => time_ctime <$> reported cutoff n
    | None => None
    end.
Proof.
  intros Hwf Hp Hfree.
  destruct (get_new_files_lookup time_ctime root_dir cutoff tree Hwf)
    as (found & Hrun & Hkeys).
  exists found. split; [exact Hrun|].
  apply option_eq. intros v. rewrite Hkeys. split.
  - intros (q & n & ct & Hq & Hl & Hf & Hgt & Hk & ->).
    assert (q = p) as ->.
    { unfold Fs.path_str in Hk. apply FsFacts.append_inv_head in Hk.
      symmetry. apply FsFacts.concat_slash_inj; try assumption.
      eapply FsFacts.lookup_path_slash_free; eassumption. }
    rewrite Hl.
    assert (reported cutoff n = Some ct) as ->
      by now apply reported_file_with_ctime.
    reflexivity.
  - destruct (Fs.lookup_path tree p) as [n|] eqn:Hl; [|discriminate].
    destruct (reported cutoff n) as [ct|] eqn:Hrep; [|discriminate].
    intros [= <-]. apply reported_file_with_ctime in Hrep as [Hf Hgt].
    exists p, n, ct. repeat split; assumption.
Qed.

Lemma count_events_app f evs1 evs2 :
  count_events f (evs1 ++ evs2) = (count_events f evs1 + count_events f evs2)%nat.
Proof. unfold count_events. now rewrite List.filter_app, length_app. Qed.

Section MonitorMore.

Variable lib : library.
Variable world : env.
Variable root_dir : string.
Variable time_interval : Z.



(** X6.  The books of a run that is still in its loop after [fuel] turns:
    every turn slept once and wrote exactly one log entry; the messenger
    was called exactly once for each scan that found nothing, hence at
    most once per turn; one reading of the clock was taken per turn besides
    the initial one, and one scan made. *)
Theorem monitor_turn_bookkeeping fuel :
  forall s0 s,
    0 <= time_interval ->
    monitor lib world fuel root_dir time_interval s0 = (s, Running) ->
    count_events is_sleep (trace s)
      = (count_events is_sleep (trace s0) + fuel)%nat /\
    count_events is_log_info (trace s)
      = (count_events is_log_info (trace s0) + fuel)%nat /\
    (count_events is_send (trace s) + count_events is_empty_scan (trace s0)
     = count_events is_send (trace s0) + count_events is_empty_scan (trace s))%nat /\
    (count_events is_send (trace s) + sends s0
     = count_events is_send (trace s0) + sends s)%nat /\
    (sends s0 <= sends s <= sends s0 + fuel)%nat /\
    readings s = S (readings s0 + fuel) /\
    scans s = (scans s0 + fuel)%nat.
Proof.
  induction fuel as [|fuel IH]; intros s0 s Hnn Hrun.
  - rewrite monitor_zero in Hrun. injection Hrun as <-. simpl.
    rewrite !count_events_app. cbn. lia.
  - destruct (monitor_running_before _ _ _ _ _ _ _ Hrun) as [s1 Hrun1].
    destruct (IH _ _ Hnn Hrun1) as (Hsl & Hlog & Hes & Hsd & Hle & Hr & Hsc).
    rewrite (monitor_step _ _ _ _ _ _ _ Hrun1) in Hrun.
    destruct (body_cases lib world root_dir time_interval Hnn s1)
      as (nf & _ & [(Hne & Hb)|[(_ & _ & Hb)|(_ & e & _ & Hb)]]);
      rewrite Hb in Hrun; simpl in Hrun; try discriminate;
      injection Hrun as <-; simpl; rewrite !count_events_app; cbn;
      rewrite ?(bool_decide_eq_false_2 _ Hne), ?bool_decide_eq_true_2 by reflexivity;
      cbn; lia.
Qed.

(** The cutoff and the tree of the scan that follows [fuel] completed
    turns. *)
Lemma monitor_scan_inputs fuel s0 s :
  0 <= time_interval ->
  monitor lib world fuel root_dir time_interval s0 = (s, Running) ->
  last_check_time s = clock world (readings s0 + fuel) /\
  readings s = S (readings s0 + fuel) /\
  tree_at world (scans s) = tree_at world (scans s0 + fuel).
Proof.
  intros Hnn Hrun.
  destruct (monitor_running_state lib world root_dir time_interval Hnn _ _ _ Hrun)
    as (Hl & Hr & Hs).
  now rewrite Hl, Hr, Hs.
Qed.


(** X8.  A file can be missed for good.  The cutoff of the next turn is
    the reading of the clock taken after the scan, so a file that appears
    after the scan of a turn with a timestamp not after the reading that
    closes that turn is reported neither by that turn, which did not see
    it, nor by any later one, for which it is too old (the clock never
    going back). *)
Theorem monitor_misses_file_created_after_scan i s0 p :
  0 <= time_interval ->
  (forall k, clock world k <= clock world (S k)) ->
  (forall j, Fs.wf (tree_at world (scans s0 + j)) = true) ->
  p <> [] ->
  Forall (fun k => Fs.slash_free k = true) p ->
  (forall j n ct,
      Fs.lookup_path (tree_at world (scans s0 + j)) p = Some n ->
      file_with_ctime n ct ->
      (i < j)%nat /\ ct <= clock world (readings s0 + S i)) ->
  forall fuel s,
    monitor lib world fuel root_dir time_interval s0 = (s, Running) ->
    exists found,
      get_new_files (time_ctime lib) root_dir (tree_at world (scans s))
        (last_check_time s) = Ok found /\
      found !! Fs.path_str root_dir p = None.
Proof.
  intros Hnn Hmono Hwf Hp Hfree Hlate fuel s Hrun.
  destruct (monitor_scan_inputs _ _ _ Hnn Hrun) as (Hl & Hr & Ht).
  destruct (get_new_files_at_path (time_ctime lib) root_dir
              (tree_at world (scans s)) (last_check_time s) p)
    as (found & Hscan & Hat); try assumption.
  { rewrite Ht. apply Hwf. }
  exists found. split; [exact Hscan|]. rewrite Hat, Ht.
  destruct (Fs.lookup_path (tree_at world (scans s0 + fuel)) p) as [n|] eqn:Hlk;
    [|reflexivity].
  destruct (reported (last_check_time s) n) as [ct|] eqn:Hrep; [|reflexivity].
  apply reported_file_with_ctime in Hrep as [Hf Hgt].
  destruct (Hlate _ _ _ Hlk Hf) as [Hij Hold].
  assert (clock world (readings s0 + S i) <= clock world (readings s0 + fuel)) as Hle.
  { apply clock_monotone_le; [exact Hmono|lia]. }
  rewrite Hl in Hgt. lia.
Qed.

End MonitorMore.

Lemma get_new_files_antitone_witness :
  exists more fewer,
    get_new_files Sample.render "/srv" Sample.tree1 10 = Ok more /\
    get_new_files Sample.render "/srv" Sample.tree1 25 = Ok fewer /\
    fewer ⊆ more.
Proof.
  apply (get_new_files_antitone Sample.render "/srv" Sample.tree1 10 25);
    [reflexivity|lia].
Defined.

Lemma get_new_files_same_files_witness :
  get_new_files Sample.render "/srv" MoreSamples.listing1 10
  = get_new_files Sample.render "/srv" MoreSamples.listing2 10.
Proof.
  apply (get_new_files_same_files Sample.render "/srv"
           MoreSamples.listing1 MoreSamples.listing2 10);
    [reflexivity|reflexivity|].
  intros [|name rest] ct Hp; [congruence|].
  split; intros (n & Hl & Hf); simpl in Hl;
    repeat (destruct (decide _) as [<-|?] in Hl; simpl in Hl);
    try discriminate;
    destruct rest; try discriminate; injection Hl as <-;
    try (now inversion Hf);
    eexists; (split; [|exact Hf]); simpl;
    repeat (destruct (decide _); try congruence); reflexivity.
Defined.


Lemma monitor_turn_bookkeeping_witness :
  exists s,
    monitor Sample.lib Sample.world_quiet 3 "/srv" 15 Sample.s_init
      = (s, Running) /\
    count_events is_log_info (trace s) = 3%nat /\
    count_events is_send (trace s) = 3%nat.
Proof.
  assert (exists s,
             monitor Sample.lib Sample.world_quiet 3 "/srv" 15 Sample.s_init
               = (s, Running) /\
             sends s = 3%nat) as (s & Hrun & Hsends).
  { eexists. split; [vm_compute; reflexivity|reflexivity]. }
  destruct (monitor_turn_bookkeeping Sample.lib Sample.world_quiet "/srv" 15 3
              Sample.s_init s ltac:(lia) Hrun)
    as (_ & Hlog & _ & Hsend & _).
  exists s. split; [exact Hrun|]. split; [exact Hlog|].
  rewrite Hsends in Hsend. simpl in Hsend. lia.
Defined.


Lemma monitor_misses_file_created_after_scan_witness :
  exists first second,
    get_new_files Sample.render "/srv" MoreSamples.tree_before 100 = Ok first /\
    first !! "/srv/late.txt" = None /\
    get_new_files Sample.render "/srv" MoreSamples.tree_after 110 = Ok second /\
    second !! "/srv/late.txt" = None.
Proof.
  assert (exists s1,
             monitor Sample.lib MoreSamples.world_late 1 "/srv" 15 Sample.s_init
               = (s1, Running) /\
             scans s1 = 1%nat /\ last_check_time s1 = 110)
    as (s1 & Hrun1 & Hs1 & Hl1).
  { eexists. split; [vm_compute; reflexivity|]. split; reflexivity. }
  pose proof (monitor_misses_file_created_after_scan Sample.lib
                MoreSamples.world_late "/srv" 15 0 Sample.s_init ["late.txt"]
                ltac:(lia)
                ltac:(intros k; simpl; lia)
                ltac:(intros [|j]; reflexivity)
                ltac:(discriminate)
                ltac:(repeat constructor)) as Hmiss.
  assert (forall fuel s,
             monitor Sample.lib MoreSamples.world_late fuel "/srv" 15 Sample.s_init
               = (s, Running) ->
             exists found,
               get_new_files (time_ctime Sample.lib) "/srv"
                 (tree_at MoreSamples.world_late (scans s)) (last_check_time s)
                 = Ok found /\
               found !! Fs.path_str "/srv" ["late.txt"] = None) as Hnever.
  { apply Hmiss. intros [|j] n ct Hl Hf; [discriminate|].
    injection Hl as <-. inversion Hf; subst. simpl. lia. }
  destruct (Hnever 0%nat _ eq_refl) as (first & Hfirst & Hout1).
  destruct (Hnever 1%nat s1 Hrun1) as (second & Hsecond & Hout2).
  rewrite Hs1, Hl1 in Hsecond.
  exists first, second. repeat split; assumption.
Defined.

(** * Further properties of the configuration loader *)

Section ConfigMore.

Context {K : Type} `{Countable K}.
Variable lib : library.
Variable host : platform K.

Lemma json_load_not_missing content :
  json_load lib content <> Raise FileNotFoundError.
Proof. unfold json_load. destruct (json_loads lib content); discriminate. Qed.

(** [read_config] on a file that opens and decodes. *)
Lemma read_config_present files path_to_config content config :
  open_read host files path_to_config = Ok content ->
  json_load lib content = Ok config ->
  read_config lib host files path_to_config = (files, [], Ok config).
Proof.
  intros Hopen Hload. unfold read_config. rewrite Hopen. simpl.
  now rewrite Hload.
Qed.

(** X9.  [read_config] is idempotent where it succeeds: called again with
    the same path on the files it left, it returns the same configuration
    and leaves the files as they are.  The second call logs nothing, or
    what the first call logged (when the requested path is still missing,
    the default file is written once more with the same content). *)
Theorem read_config_idempotent files path_to_config files' logged config :
  read_config lib host files path_to_config = (files', logged, Ok config) ->
  exists logged',
    read_config lib host files' path_to_config = (files', logged', Ok config) /\
    (logged' = [] \/ logged' = logged).
Proof.
  intros Hfirst. unfold read_config in Hfirst.
  destruct (open_read host files path_to_config) as [content|e] eqn:Hopen;
    simpl in Hfirst.
  - destruct (json_load lib content) as [c|e] eqn:Hload.
    + injection Hfirst as <- <- <-. exists []. split; [|now left].
      now apply read_config_present with content.
    + pose proof (json_load_not_missing content) as Hne. rewrite Hload in Hne.
      destruct e; try discriminate. congruence.
  - destruct e; try discriminate.
    unfold create_default_config, open_write in Hfirst.
    assert (files' = <[resolve host (config_path host)
                       := Text (default_text lib host)]> files /\
            logged = [config_not_found_message path_to_config] /\
            json_load lib (default_text lib host) = Ok config)
      as (Hfiles & -> & Hload).
    { destruct (files !! resolve host (config_path host)) as [[t|e]|] eqn:Hk;
        try discriminate;
        injection Hfirst as <- <- Hback;
        unfold open_read in Hback; rewrite lookup_insert_eq in Hback;
        simpl in Hback; auto. }
    assert (files' !! resolve host (config_path host)
            = Some (Text (default_text lib host))) as Hdefault.
    { rewrite Hfiles. apply lookup_insert_eq. }
    destruct (decide (resolve host path_to_config = resolve host (config_path host)))
      as [Hsame|Hother].
    + exists []. split; [|now left].
      apply read_config_present with (default_text lib host); [|exact Hload].
      unfold open_read. now rewrite Hsame, Hdefault.
    + exists [config_not_found_message path_to_config]. split; [|now right].
      assert (open_read host files' path_to_config = Raise FileNotFoundError)
        as Hopen'.
      { unfold open_read in *. rewrite Hfiles, lookup_insert_ne by congruence.
        exact Hopen. }
      unfold read_config. rewrite Hopen'. simpl.
      unfold create_default_config, open_write. rewrite Hdefault.
      assert (<[resolve host (config_path host) := Text (default_text lib host)]>
                files' = files') as ->.
      { now apply insert_id. }
      unfold open_read. rewrite Hdefault. simpl. now rewrite Hload.
Qed.

End ConfigMore.

Lemma read_config_idempotent_witness :
  exists files' logged',
    read_config Sample.lib Sample.home files' "/etc/sentinel.json"
    = (files', logged', Ok (default_config Sample.home)) /\
    files' !! "/home/u/config.json"
    = Some (Text (default_text Sample.lib Sample.home)).
Proof.
  assert (read_config Sample.lib Sample.home Sample.home_files "/etc/sentinel.json"
          = (<[resolve Sample.home (config_path Sample.home)
               := Text (default_text Sample.lib Sample.home)]> Sample.home_files,
             [config_not_found_message "/etc/sentinel.json"],
             Ok (default_config Sample.home))) as Hfirst.
  { rewrite read_config_missing.
    - rewrite (read_back_default Sample.lib Sample.home);
        [reflexivity|vm_compute; reflexivity|apply lookup_insert_eq].
    - reflexivity.
    - intros e.
      change (resolve Sample.home (config_path Sample.home))
        with "/home/u/config.json".
      unfold Sample.home_files. rewrite lookup_singleton_eq. discriminate. }
  destruct (read_config_idempotent Sample.lib Sample.home _ _ _ _ _ Hfirst)
    as (logged' & Hsecond & _).
  eexists _, logged'. split; [exact Hsecond|].
  apply lookup_insert_eq.
Defined.

(** * Properties of the mail messenger *)

Module EmailFacts.

Import Email.

Lemma str_app_nil_r s : s +:+ EmptyString = s.
Proof.
  induction s as [|c s IH]; [reflexivity|].
  now rewrite FsFacts.append_cons, IH.
Qed.

Lemma str_app_assoc a b c : (a +:+ b) +:+ c = a +:+ (b +:+ c).
Proof.
  induction a as [|x a IH]; [reflexivity|].
  now rewrite !FsFacts.append_cons, IH.
Qed.

(** A string without separator is one component. *)
Lemma split_slash_free x :
  forall current,
    Fs.slash_free x = true -> split_slash current x = [current +:+ x].
Proof.
  induction x as [|c x IH]; intros current Hfree.
  - simpl. now rewrite str_app_nil_r.
  - apply FsFacts.slash_free_cons in Hfree as [Hc Hfree]. simpl.
    apply Ascii.eqb_neq in Hc. rewrite Hc, (IH _ Hfree), str_app_assoc.
    reflexivity.
Qed.

(** What follows the last separator is the last component. *)
Lemma split_slash_last a x :
  forall current,
    Fs.slash_free x = true ->
    exists l, split_slash current (a +:+ String Fs.slash x) = l ++ [x].
Proof.
  induction a as [|c a IH]; intros current Hfree.
  - rewrite FsFacts.append_nil. simpl. rewrite ?Ascii.eqb_refl.
    rewrite (split_slash_free _ _ Hfree). now exists [current].
  - rewrite FsFacts.append_cons. simpl.
    destruct (Ascii.eqb c Fs.slash).
    + destruct (IH EmptyString Hfree) as [l ->]. now exists (current :: l).
    + apply IH, Hfree.
Qed.

Lemma kept_component x :
  x <> EmptyString -> x <> "." ->
  negb (String.eqb x EmptyString) && negb (String.eqb x ".") = true.
Proof.
  intros H1 H2. apply String.eqb_neq in H1, H2. now rewrite H1, H2.
Qed.

Lemma name_plain x :
  Fs.slash_free x = true -> x <> EmptyString -> x <> "." -> name x = x.
Proof.
  intros Hfree H1 H2. unfold name. rewrite (split_slash_free _ _ Hfree).
  rewrite FsFacts.append_nil. simpl. now rewrite kept_component.
Qed.

Lemma name_after_slash a x :
  Fs.slash_free x = true -> x <> EmptyString -> x <> "." ->
  name (a +:+ String Fs.slash x) = x.
Proof.
  intros Hfree H1 H2. unfold name.
  destruct (split_slash_last a x EmptyString Hfree) as [l ->].
  rewrite List.filter_app. simpl. rewrite kept_component by assumption.
  apply List.last_last.
Qed.

Lemma string_of_list_ascii_snoc l c :
  string_of_list_ascii (l ++ [c]) = string_of_list_ascii l +:+ String c EmptyString.
Proof.
  induction l as [|d l IH]; [reflexivity|].
  simpl. now rewrite IH, FsFacts.append_cons.
Qed.

Lemma ends_with_slash_inv s :
  Fs.ends_with_slash s = true -> exists a, s = a +:+ String Fs.slash EmptyString.
Proof.
  unfold Fs.ends_with_slash. intros Hend.
  destruct (rev (list_ascii_of_string s)) as [|c t] eqn:Hrev; [discriminate|].
  apply Ascii.eqb_eq in Hend as ->.
  exists (string_of_list_ascii (rev t)).
  rewrite <- string_of_list_ascii_snoc, <- (string_of_list_ascii_of_string s).
  f_equal. rewrite <- (rev_involutive (list_ascii_of_string s)), Hrev.
  reflexivity.
Qed.

(** [Path(str(Path(root_dir) / x)).name] is [x]. *)
Lemma name_path_str root_dir x :
  Fs.slash_free x = true -> x <> EmptyString -> x <> "." ->
  name (Fs.path_str root_dir [x]) = x.
Proof.
  intros Hfree H1 H2. unfold Fs.path_str, Fs.path_prefix. simpl String.concat.
  destruct (bool_decide (root_dir = ".") || bool_decide (root_dir = EmptyString)).
  - rewrite FsFacts.append_nil. now apply name_plain.
  - destruct (Fs.ends_with_slash root_dir) eqn:Hend.
    + apply ends_with_slash_inv in Hend as [a ->].
      rewrite str_app_assoc, FsFacts.append_cons, FsFacts.append_nil.
      now apply name_after_slash.
    + rewrite str_app_assoc.
      change ("/" +:+ x) with (String Fs.slash x).
      now apply name_after_slash.
Qed.

(** The message that is handed to the server. *)
Lemma full_message (b64encode : string -> string) self text content :
  attach (attachment_part b64encode self content) (message_head self text)
  = mk_message
      [ ("From", sender_email self); ("To", receiver_email self);
        ("Subject", "Log File Notification") ]
      [ mk_part "text" "plain" [] text;
        mk_part "application" "octet-stream"
          [ ("Content-Transfer-Encoding", "base64");
            ("Content-Disposition", disposition (log_file_location self)) ]
          (b64encode content) ].
Proof. reflexivity. Qed.

End EmailFacts.

Section SendFacts.

Context {K : Type} `{Countable K}.
Variable b64encode : string -> string.
Variable host : platform K.
Variable files : gmap K fentry.
Variable smtp : Email.server.

(** X10.  The order of the conversation.  The password is handed to the
    server only on a connection that was made and upgraded by [STARTTLS],
    and always together with the sender address; the message is handed
    over only after the login was accepted, and it is the message with the
    three headers, the text given and the log file, as it is at the time
    of the call, attached under its base64 encoding. *)
Theorem send_follows_protocol self text :
  let events :=
    fst (Email.send_log_file_with_message b64encode host files smtp self text) in
  (forall user secret,
      In (Email.Login user secret) events ->
      Email.connect_raises smtp = None /\ Email.starttls_raises smtp = None /\
      user = Email.sender_email self /\ secret = Email.password self /\
      In Email.StartTls events) /\
  (forall msg,
      In (Email.SendMessage msg) events ->
      Email.starttls_raises smtp = None /\ Email.login_raises smtp = None /\
      In (Email.Login (Email.sender_email self) (Email.password self)) events /\
      exists content,
        open_read host files (Email.log_file_location self) = Ok content /\
        msg = Email.mk_message
                [ ("From", Email.sender_email self);
                  ("To", Email.receiver_email self);
                  ("Subject", "Log File Notification") ]
                [ Email.mk_part "text" "plain" [] text;
                  Email.mk_part "application" "octet-stream"
                    [ ("Content-Transfer-Encoding", "base64");
                      ("Content-Disposition",
                       Email.disposition (Email.log_file_location self)) ]
                    (b64encode content) ]).
Proof.
  unfold Email.send_log_file_with_message.
  destruct (open_read host files (Email.log_file_location self)) as [content|e];
    [|simpl; split; intros; contradiction].
  rewrite EmailFacts.full_message.
  unfold Email.with_SMTP, Email.and_then, Email.step.
  destruct (Email.connect_raises smtp), (Email.starttls_raises smtp),
    (Email.login_raises smtp), (Email.send_message_raises smtp),
    (Email.quit_raises smtp); simpl;
    (split; [intros user secret Hin|intros msg Hin]);
    repeat (destruct Hin as [Hin|Hin]; try discriminate);
    try contradiction;
    try (injection Hin as <- <-); try (injection Hin as <-);
    repeat split; auto 8; eauto.
Qed.

(** X11.  One connection, always closed.  When the log file can be read
    and the server is reached, the conversation starts with the
    connection to [smtp.gmail.com], port 587, and ends with [QUIT],
    whichever step raised in between; no second connection is made. *)
Theorem send_closes_connection self text content :
  open_read host files (Email.log_file_location self) = Ok content ->
  Email.connect_raises smtp = None ->
  exists middle,
    fst (Email.send_log_file_with_message b64encode host files smtp self text)
    = Email.Connect "smtp.gmail.com" 587 :: middle ++ [Email.Quit] /\
    (forall h p, ~ In (Email.Connect h p) middle) /\
    ~ In Email.Quit middle.
Proof.
  intros Hopen Hconnect. unfold Email.send_log_file_with_message.
  rewrite Hopen, EmailFacts.full_message.
  unfold Email.with_SMTP, Email.and_then, Email.step. rewrite Hconnect.
  destruct (Email.starttls_raises smtp) as [e1|];
    [exists [Email.StartTls]
    |destruct (Email.login_raises smtp) as [e2|];
     [exists [Email.StartTls;
              Email.Login (Email.sender_email self) (Email.password self)]
     |eexists [Email.StartTls;
               Email.Login (Email.sender_email self) (Email.password self);
               Email.SendMessage _]]];
    destruct (Email.send_message_raises smtp), (Email.quit_raises smtp); simpl;
    (split; [reflexivity|]);
    (split; [intros h p Hin|intros Hin]);
    repeat (destruct Hin as [Hin|Hin]; try discriminate); contradiction.
Qed.

(** X12.  The call returns if and only if the log file could be read and
    no step of the conversation raised; the conversation is then the
    connection, [STARTTLS], the login with the sender address and the
    password, one message, and [QUIT]. *)
Theorem send_returns_iff_every_step_passes self text :
  (snd (Email.send_log_file_with_message b64encode host files smtp self text)
   = Ok tt <->
   (exists content,
       open_read host files (Email.log_file_location self) = Ok content) /\
   Email.connect_raises smtp = None /\ Email.starttls_raises smtp = None /\
   Email.login_raises smtp = None /\ Email.send_message_raises smtp = None /\
   Email.quit_raises smtp = None) /\
  (snd (Email.send_log_file_with_message b64encode host files smtp self text)
   = Ok tt ->
   exists msg,
     fst (Email.send_log_file_with_message b64encode host files smtp self text)
     = [ Email.Connect "smtp.gmail.com" 587; Email.StartTls;
         Email.Login (Email.sender_email self) (Email.password self);
         Email.SendMessage msg; Email.Quit ]).
Proof.
  unfold Email.send_log_file_with_message.
  destruct (open_read host files (Email.log_file_location self)) as [content|e].
  - unfold Email.with_SMTP, Email.and_then, Email.step.
    destruct (Email.connect_raises smtp), (Email.starttls_raises smtp),
      (Email.login_raises smtp), (Email.send_message_raises smtp),
      (Email.quit_raises smtp); simpl;
      (split; [split|]);
      try discriminate;
      try (intros (_ & H1 & H2 & H3 & H4 & H5); discriminate);
      eauto 10.
  - simpl. split; [split|]; try discriminate.
    intros ([content Hc] & _). discriminate.
Qed.

(** X13.  Which failure leaves the call.  When the log file cannot be
    opened, that exception is raised and the server is not contacted.
    When the server cannot be reached, that exception is raised and
    nothing more is said, not even [QUIT].  On a connection that was made,
    an exception raised while quitting is the one that leaves the call,
    whatever happened before. *)
Theorem send_failures self text :
  (forall e,
      open_read host files (Email.log_file_location self) = Raise e ->
      Email.send_log_file_with_message b64encode host files smtp self text
      = ([], Raise e)) /\
  (forall content e,
      open_read host files (Email.log_file_location self) = Ok content ->
      Email.connect_raises smtp = Some e ->
      Email.send_log_file_with_message b64encode host files smtp self text
      = ([Email.Connect "smtp.gmail.com" 587], Raise e)) /\
  (forall content e,
      open_read host files (Email.log_file_location self) = Ok content ->
      Email.connect_raises smtp = None ->
      Email.quit_raises smtp = Some e ->
      snd (Email.send_log_file_with_message b64encode host files smtp self text)
      = Raise e).
Proof.
  unfold Email.send_log_file_with_message. repeat split.
  - intros e ->. reflexivity.
  - intros content e -> Hconnect. unfold Email.with_SMTP, Email.step.
    now rewrite Hconnect.
  - intros content e -> Hconnect Hquit.
    unfold Email.with_SMTP, Email.and_then, Email.step.
    rewrite Hconnect, Hquit.
    destruct (Email.starttls_raises smtp), (Email.login_raises smtp),
      (Email.send_message_raises smtp); reflexivity.
Qed.

End SendFacts.

(** X14.  With the default configuration the attachment is always called
    [monitor.txt]: whatever the working directory, the part built for the
    log file the default configuration names has the base64 transfer
    encoding and the disposition [attachment; filename="monitor.txt"]. *)
Theorem default_log_file_attachment {K : Type} (host : platform K)
    (b64encode : string -> string) :
  exists log_file,
    subscript (default_config host) "log_file_location" = Done (JStr log_file) /\
    forall receiver sender secret content,
      Email.attachment_part b64encode
        (Email.EmailMessenger log_file receiver sender secret) content
      = Email.mk_part "application" "octet-stream"
          [ ("Content-Transfer-Encoding", "base64");
            ("Content-Disposition",
             "attachment; filename=" +:+ Email.quote_mark +:+ "monitor.txt" +:+
             Email.quote_mark) ]
          (b64encode content).
Proof.
  exists (Fs.path_str (cwd host) ["monitor.txt"]). split; [reflexivity|].
  intros receiver sender secret content.
  unfold Email.attachment_part, Email.add_header, Email.encode_base64,
    Email.set_payload, Email.MIMEBase, Email.disposition. simpl.
  now rewrite EmailFacts.name_path_str.
Qed.


Lemma send_closes_connection_witness :
  exists middle,
    fst (Email.send_log_file_with_message MailSamples.b64 Sample.home
           MailSamples.logged_files MailSamples.no_tls MailSamples.operator
           "No new files were created in the last 15 minutes")
    = Email.Connect "smtp.gmail.com" 587 :: middle ++ [Email.Quit].
Proof.
  destruct (send_closes_connection MailSamples.b64 Sample.home
              MailSamples.logged_files MailSamples.no_tls MailSamples.operator
              "No new files were created in the last 15 minutes" "started"
              eq_refl eq_refl)
    as (middle & Hevents & _).
  exists middle. exact Hevents.
Defined.

(** * Properties of the entry point *)

Module LoggingFacts.

Import Logging.

(** Before [basicConfig] is called with a level, [logging.info] writes
    nothing: the root logger stays at [WARNING]. *)
Lemma info_below_level message root :
  level root = WARNING -> emitted root = [] ->
  level (info message root) = WARNING /\ emitted (info message root) = [].
Proof.
  intros Hlevel Hnone. unfold info.
  destruct (handlers root); simpl; rewrite Hlevel; simpl; auto.
Qed.

Lemma infos_below_level logged :
  forall root,
    level root = WARNING -> emitted root = [] ->
    level (fold_left (fun root message => info message root) logged root) = WARNING /\
    emitted (fold_left (fun root message => info message root) logged root) = [].
Proof.
  induction logged as [|message logged IH]; intros root Hlevel Hnone; [now split|].
  simpl. destruct (info_below_level message root Hlevel Hnone). now apply IH.
Qed.

(** With one handler and the level at [INFO], the handler gets the
    message. *)
Lemma info_at_level message h written :
  info message (mk_root INFO [h] written)
  = mk_root INFO [h] (written ++ [(h, message)]).
Proof. reflexivity. Qed.

Section BasicConfigFacts.

Context {K : Type} `{Countable K}.
Variable host : platform K.

(** What [basicConfig] leaves when it returns. *)
Lemma basicConfig_done filename files root files' root' :
  basicConfig host filename files root = (files', root', Done tt) ->
  exists h,
    root' = mk_root INFO [h] (emitted root) /\
    ((truthy filename = false /\ h = StreamHandler /\ files' = files) \/
     (exists path,
         truthy filename = true /\ filename = JStr path /\ h = FileHandler path /\
         ((exists content, files !! resolve host path = Some (Text content) /\
                           files' = files) \/
          (files !! resolve host path = None /\
           files' = <[resolve host path := Text EmptyString]> files)))).
Proof.
  unfold basicConfig. destruct (truthy filename) eqn:Htruthy.
  - destruct filename as [|b|n|path|items|fields]; try discriminate.
    destruct (files !! resolve host path) as [[content|e]|] eqn:Hl;
      try discriminate; intros [= <- <-]; eexists; (split; [reflexivity|]);
      right; exists path; repeat split; eauto.
  - intros [= <- <-]. eexists. split; [reflexivity|]. left. now repeat split.
Qed.

Lemma basicConfig_emitted filename files root files' root' r :
  basicConfig host filename files root = (files', root', r) ->
  emitted root' = emitted root.
Proof.
  unfold basicConfig. destruct (truthy filename).
  - destruct filename as [|b|n|path|items|fields];
      try (intros [= <- <- <-]; reflexivity).
    destruct (files !! resolve host path) as [[content|e]|];
      intros [= <- <- <-]; reflexivity.
  - intros [= <- <- <-]. reflexivity.
Qed.

End BasicConfigFacts.

End LoggingFacts.

Section MainFacts.

Context {K : Type} `{Countable K}.
Variable lib : library.
Variable host : platform K.

(** The root logger when [read_config] is done. *)
Abbreviation after_read logged :=
  (fold_left (fun root message => Logging.info message root) logged
     Logging.initial).

Lemma after_read_quiet logged :
  Logging.level (after_read logged) = Logging.WARNING /\
  Logging.emitted (after_read logged) = [].
Proof. now apply LoggingFacts.infos_below_level. Qed.

Lemma main_unfold files files1 logged config :
  read_config lib host files "config.json" = (files1, logged, config) ->
  main lib host files =
  match config with
  | Raise e => (files1, after_read logged, Failed (Exn e))
  | Ok config =>
      match subscript config "log_file_location" with
      | Failed e => (files1, after_read logged, Failed e)
      | Done filename =>
          match Logging.basicConfig host filename files1 (after_read logged) with
          | (files2, root, Failed e) => (files2, root, Failed e)
          | (files2, root, Done _) =>
              (files2, fst (prepare_call lib config root),
               snd (prepare_call lib config root))
          end
      end
  end.
Proof.
  intros Hread. unfold main. rewrite Hread.
  destruct config as [config|e]; [|reflexivity].
  destruct (subscript config "log_file_location") as [filename|e]; [|reflexivity].
  destruct (Logging.basicConfig host filename files1 (after_read logged))
    as [[files2 root] [[]|e]]; reflexivity.
Qed.

Lemma first_letters_differ config path :
  read_config_message lib config <> config_not_found_message path.
Proof.
  unfold read_config_message, config_not_found_message.
  rewrite !FsFacts.append_cons. discriminate.
Qed.

(** X15.  [main] does not check the configuration before it uses it: a
    missing key is noticed when the statement that needs it runs.  The
    [KeyError] names the first key that is missing, in the order
    [log_file_location], [email_receiver], [email_sender],
    [email_password], [directory_of_interest], [check_time_interval].
    Without [log_file_location] nothing was done yet; for any other key,
    logging has been configured (the log file opened) and the entry with
    the parameters written before the exception leaves [main]. *)
Theorem main_raises_key_error_for_first_missing_key
    files files1 logged fields key :
  read_config lib host files "config.json" = (files1, logged, Ok (JDict fields)) ->
  first_missing keys_of_main fields = Some key ->
  (key = "log_file_location" ->
   main lib host files
   = (files1,
      fold_left (fun root message => Logging.info message root) logged
        Logging.initial,
      Failed (KeyError key))) /\
  (forall filename files2 root2,
      dict_get "log_file_location" fields = Some filename ->
      Logging.basicConfig host filename files1
        (fold_left (fun root message => Logging.info message root) logged
           Logging.initial)
      = (files2, root2, Done tt) ->
      main lib host files
      = (files2,
         Logging.info (read_config_message lib (JDict fields)) root2,
         Failed (KeyError key))).
Proof.
  intros Hread Hmissing. rewrite (main_unfold _ _ _ _ Hread).
  unfold first_missing, keys_of_main in Hmissing.
  unfold prepare_call, subscript. split.
  - intros ->.
    destruct (dict_get "log_file_location" fields); [|reflexivity].
    repeat (match type of Hmissing with
            | context [dict_get ?k fields] => destruct (dict_get k fields)
            end; try discriminate).
  - intros filename files2 root2 Hfile Hconfig.
    rewrite Hfile in *. rewrite Hconfig. simpl fst. simpl snd.
    repeat (match type of Hmissing with
            | context [dict_get ?k fields] => destruct (dict_get k fields)
            end; try discriminate);
      injection Hmissing as <-; reflexivity.
Qed.

(** X16.  A configuration that has the six keys reaches [monitor]
    whatever the values are: they are handed on as they were read, to
    [EmailMessenger] and to [monitor], without a check or a conversion. *)
Theorem main_passes_config_values_on
    files files1 logged fields filename files2 root2 :
  read_config lib host files "config.json" = (files1, logged, Ok (JDict fields)) ->
  first_missing keys_of_main fields = None ->
  dict_get "log_file_location" fields = Some filename ->
  Logging.basicConfig host filename files1
    (fold_left (fun root message => Logging.info message root) logged
       Logging.initial)
  = (files2, root2, Done tt) ->
  exists call,
    main lib host files
    = (files2, Logging.info (read_config_message lib (JDict fields)) root2,
       Done call) /\
    dict_get "directory_of_interest" fields = Some (call_root_dir call) /\
    dict_get "check_time_interval" fields = Some (call_time_interval call) /\
    dict_get "log_file_location" fields = Some (call_log_file_location call) /\
    dict_get "email_receiver" fields = Some (call_receiver_email call) /\
    dict_get "email_sender" fields = Some (call_sender_email call) /\
    dict_get "email_password" fields = Some (call_password call).
Proof.
  intros Hread Hmissing Hfile Hconfig. rewrite (main_unfold _ _ _ _ Hread).
  unfold first_missing, keys_of_main in Hmissing.
  unfold prepare_call, subscript. rewrite Hfile in *. rewrite Hconfig.
  simpl fst. simpl snd.
  repeat (match type of Hmissing with
          | context [dict_get ?k fields] => destruct (dict_get k fields)
          end; try discriminate).
  eexists. split; [reflexivity|]. simpl. now repeat split.
Qed.

(** X17.  What reaches the log.  The entry [read_config] makes when the
    configuration file is missing is made before logging is configured,
    while the root logger is still at [WARNING]: it is written nowhere.
    When [main] is at its call of [monitor], or has failed before, the
    handlers were given at most one message, the entry with the
    parameters. *)
Theorem main_logs_only_the_parameters files :
  let root := snd (fst (main lib host files)) in
  (Logging.emitted root = [] \/
   exists h config,
     snd (read_config lib host files "config.json") = Ok config /\
     Logging.handlers root = [h] /\
     Logging.emitted root = [(h, read_config_message lib config)]) /\
  (forall h path,
      ~ In (h, config_not_found_message path) (Logging.emitted root)).
Proof.
  assert (let root := snd (fst (main lib host files)) in
          Logging.emitted root = [] \/
          exists h config,
            snd (read_config lib host files "config.json") = Ok config /\
            Logging.handlers root = [h] /\
            Logging.emitted root = [(h, read_config_message lib config)])
    as Hlog.
  { destruct (read_config lib host files "config.json")
      as [[files1 logged] config] eqn:Hread.
    rewrite (main_unfold _ _ _ _ Hread).
    destruct (after_read_quiet logged) as [Hlevel Hnone].
    destruct config as [config|e]; [|now left].
    destruct (subscript config "log_file_location") as [filename|e]; [|now left].
    destruct (Logging.basicConfig host filename files1 (after_read logged))
      as [[files2 root] [[]|e]] eqn:Hconfig.
    - right.
      apply LoggingFacts.basicConfig_done in Hconfig as (h & -> & _).
      exists h, config. simpl. rewrite Hnone. now repeat split.
    - left. simpl.
      now rewrite (LoggingFacts.basicConfig_emitted _ _ _ _ _ _ _ Hconfig). }
  split; [exact Hlog|].
  intros h path Hin. simpl in Hlog.
  destruct Hlog as [Hnone|(h' & config & _ & _ & Hone)].
  - rewrite Hnone in Hin. destruct Hin.
  - rewrite Hone in Hin. destruct Hin as [Heq|[]].
    apply (first_letters_differ config path). congruence.
Qed.



(** X19.  The two ways [main] fails on the type of what it read.  A
    configuration file that holds valid JSON but not an object makes the
    first subscript raise [TypeError].  A [log_file_location] that is
    neither a string nor false makes [FileHandler] raise it; the handlers
    that were in place are gone by then.  In both cases no file was
    touched and [monitor] is not called. *)
Theorem main_type_errors files files1 logged config :
  read_config lib host files "config.json" = (files1, logged, Ok config) ->
  ((forall fields, config <> JDict fields) ->
   main lib host files
   = (files1,
      fold_left (fun root message => Logging.info message root) logged
        Logging.initial,
      Failed TypeError)) /\
  (forall filename,
      subscript config "log_file_location" = Done filename ->
      truthy filename = true ->
      (forall path, filename <> JStr path) ->
      main lib host files
      = (files1, Logging.mk_root Logging.WARNING [] [], Failed TypeError)).
Proof.
  intros Hread. rewrite (main_unfold _ _ _ _ Hread). split.
  - intros Hnot. destruct config; try reflexivity. now destruct (Hnot fields).
  - intros filename -> Htruthy Hnot.
    destruct (after_read_quiet logged) as [Hlevel Hnone].
    unfold Logging.basicConfig. rewrite Htruthy, Hlevel, Hnone.
    destruct filename; try reflexivity. now destruct (Hnot s).
Qed.

(** X20.  A [log_file_location] that is false, the empty string or
    [null] for instance, is not refused: logging goes to the console, no
    log file is opened or created, and [main] goes on to its call of
    [monitor] with that value as the log file of the messenger. *)
Theorem main_logs_to_console_without_log_file
    files files1 logged fields filename :
  read_config lib host files "config.json" = (files1, logged, Ok (JDict fields)) ->
  first_missing keys_of_main fields = None ->
  dict_get "log_file_location" fields = Some filename ->
  truthy filename = false ->
  exists call,
    main lib host files
    = (files1,
       Logging.mk_root Logging.INFO [Logging.StreamHandler]
         [(Logging.StreamHandler, read_config_message lib (JDict fields))],
       Done call) /\
    call_log_file_location call = filename.
Proof.
  intros Hread Hmissing Hfile Hfalse. rewrite (main_unfold _ _ _ _ Hread).
  destruct (after_read_quiet logged) as [Hlevel Hnone].
  unfold first_missing, keys_of_main in Hmissing.
  unfold subscript at 1. rewrite Hfile.
  unfold Logging.basicConfig. rewrite Hfalse, Hnone.
  unfold prepare_call, subscript. rewrite Hfile in *.
  simpl fst. simpl snd.
  repeat (match type of Hmissing with
          | context [dict_get ?k fields] => destruct (dict_get k fields)
          end; try discriminate).
  eexists. split; reflexivity.
Qed.

End MainFacts.

Lemma main_raises_key_error_for_first_missing_key_witness :
  exists files2 root,
    main Sample.lib Sample.home MailSamples.no_password_files
    = (files2, root, Failed (KeyError "email_password")) /\
    files2 !! "/home/u/monitor.txt" = Some (Text EmptyString).
Proof.
  assert (read_config Sample.lib Sample.home MailSamples.no_password_files
            "config.json"
          = (MailSamples.no_password_files, [],
             Ok (JDict [ ("directory_of_interest", JStr "/srv");
                         ("check_time_interval", JInt 5);
                         ("log_file_location", JStr "/home/u/monitor.txt");
                         ("email_receiver", JStr "ops@example.org");
                         ("email_sender", JStr "sentinel@example.org") ])))
    as Hread.
  { apply read_config_present with MailSamples.no_password_text.
    - unfold open_read.
      change (resolve Sample.home "config.json") with "/home/u/config.json".
      unfold MailSamples.no_password_files. now rewrite lookup_singleton_eq.
    - vm_compute. reflexivity. }
  destruct (main_raises_key_error_for_first_missing_key Sample.lib Sample.home
              _ _ _ _ "email_password" Hread eq_refl) as [_ Hlater].
  eexists _, _. split.
  - apply (Hlater (JStr "/home/u/monitor.txt")); [reflexivity|].
    unfold Logging.basicConfig. simpl truthy. cbv beta iota.
    change (resolve Sample.home "/home/u/monitor.txt") with "/home/u/monitor.txt".
    unfold MailSamples.no_password_files.
    rewrite lookup_singleton_ne by discriminate. reflexivity.
  - apply lookup_insert_eq.
Defined.

Lemma main_passes_config_values_on_witness :
  exists files2 root,
    main Sample.lib Sample.home MailSamples.odd_files
    = (files2, root,
       Done (mk_call (JList []) (JStr "often") (JStr "/home/u/monitor.txt")
               JNull (JStr "sentinel@example.org") (JInt 7))).
Proof.
  assert (read_config Sample.lib Sample.home MailSamples.odd_files "config.json"
          = (MailSamples.odd_files, [], Ok MailSamples.odd_config)) as Hread.
  { apply read_config_present
      with (MiniJson.dumps None MailSamples.odd_config).
    - unfold open_read.
      change (resolve Sample.home "config.json") with "/home/u/config.json".
      unfold MailSamples.odd_files. now rewrite lookup_singleton_eq.
    - vm_compute. reflexivity. }
  destruct (main_passes_config_values_on Sample.lib Sample.home
              MailSamples.odd_files MailSamples.odd_files [] _
              (JStr "/home/u/monitor.txt")
              (<["/home/u/monitor.txt" := Text EmptyString]> MailSamples.odd_files)
              (Logging.mk_root Logging.INFO
                 [Logging.FileHandler "/home/u/monitor.txt"] [])
              Hread eq_refl eq_refl)
    as (call & Hmain & H1 & H2 & H3 & H4 & H5 & H6).
  { unfold Logging.basicConfig. simpl truthy. cbv beta iota.
    change (resolve Sample.home "/home/u/monitor.txt") with "/home/u/monitor.txt".
    unfold MailSamples.odd_files.
    rewrite lookup_singleton_ne by discriminate. reflexivity. }
  destruct call as [c1 c2 c3 c4 c5 c6]. simpl in H1, H2, H3, H4, H5, H6.
  injection H1 as <-. injection H2 as <-. injection H3 as <-.
  injection H4 as <-. injection H5 as <-. injection H6 as <-.
  eexists _, _. exact Hmain.
Defined.


Lemma main_type_errors_witness :
  main Sample.lib Sample.home MailSamples.list_files
  = (MailSamples.list_files, Logging.initial, Failed TypeError).
Proof.
  assert (read_config Sample.lib Sample.home MailSamples.list_files "config.json"
          = (MailSamples.list_files, [], Ok (JList [JInt 1; JInt 2]))) as Hread.
  { apply read_config_present with "[1, 2]".
    - unfold open_read.
      change (resolve Sample.home "config.json") with "/home/u/config.json".
      unfold MailSamples.list_files. now rewrite lookup_singleton_eq.
    - vm_compute. reflexivity. }
  apply (main_type_errors Sample.lib Sample.home _ _ _ _ Hread).
  discriminate.
Defined.

Lemma main_logs_to_console_without_log_file_witness :
  exists root call,
    main Sample.lib Sample.home MailSamples.console_files
    = (MailSamples.console_files, root, Done call) /\
    Logging.handlers root = [Logging.StreamHandler] /\
    call_log_file_location call = JStr EmptyString.
Proof.
  assert (read_config Sample.lib Sample.home MailSamples.console_files
            "config.json"
          = (MailSamples.console_files, [], Ok MailSamples.console_config))
    as Hread.
  { apply read_config_present
      with (MiniJson.dumps None MailSamples.console_config).
    - unfold open_read.
      change (resolve Sample.home "config.json") with "/home/u/config.json".
      unfold MailSamples.console_files. now rewrite lookup_singleton_eq.
    - vm_compute. reflexivity. }
  destruct (main_logs_to_console_without_log_file Sample.lib Sample.home
              _ _ _ _ (JStr EmptyString) Hread eq_refl eq_refl eq_refl)
    as (call & Hmain & Hfile).
  eexists _, call. split; [exact Hmain|]. split; [reflexivity|exact Hfile].
Defined.

(** * The monitor with the mail messenger *)

Section MonitorWithMailFacts.

Context {K : Type} `{Countable K}.
Variable b64encode : string -> string.
Variable host : platform K.
Variable lib : library.
Variable ticks : nat -> Z.
Variable trees : nat -> Fs.node.
Variable files_at : nat -> gmap K fentry.
Variable server_at : nat -> Email.server.
Variable self : Email.messenger.
Variable root_dir : string.
Variable time_interval : Z.

Abbreviation mail_world :=
  (with_messenger b64encode host ticks trees files_at server_at self).

(** The outcome of a send does not depend on the text sent. *)
Lemma send_outcome_any_text files smtp text :
  snd (Email.send_log_file_with_message b64encode host files smtp self text)
  = snd (Email.send_log_file_with_message b64encode host files smtp self
           EmptyString).
Proof.
  unfold Email.send_log_file_with_message.
  destruct (open_read host files (Email.log_file_location self)); [|reflexivity].
  unfold Email.with_SMTP, Email.and_then, Email.step.
  destruct (Email.connect_raises smtp), (Email.starttls_raises smtp),
    (Email.login_raises smtp), (Email.send_message_raises smtp),
    (Email.quit_raises smtp); reflexivity.
Qed.

(** X21.  [monitor] with the mail messenger.  In a turn that finds
    nothing new, the loop goes on exactly when the mail went through;
    otherwise the exception of the send, be it the log file that cannot be
    opened or a step of the conversation with the server, leaves
    [monitor] with the cutoff as it was.  A turn that finds new files
    does not touch the messenger and goes on. *)
Theorem monitor_with_mail_turn fuel s0 s new_files :
  0 <= time_interval ->
  monitor lib (with_messenger b64encode host ticks trees files_at server_at self)
    fuel root_dir time_interval s0 = (s, Running) ->
  get_new_files (time_ctime lib) root_dir (trees (scans s)) (last_check_time s)
    = Ok new_files ->
  exists s',
    monitor lib (with_messenger b64encode host ticks trees files_at server_at self)
      (S fuel) root_dir time_interval s0
    = (s',
       if decide (new_files = ∅) then
         match snd (Email.send_log_file_with_message b64encode host
                      (files_at (sends s)) (server_at (sends s)) self
                      (no_new_files_message time_interval)) with
         | Ok _ => Running
         | Raise e => Raised e
         end
       else Running) /\
    (new_files <> ∅ -> sends s' = sends s) /\
    (forall e,
        new_files = ∅ ->
        snd (Email.send_log_file_with_message b64encode host
               (files_at (sends s)) (server_at (sends s)) self
               (no_new_files_message time_interval)) = Raise e ->
        last_check_time s' = last_check_time s).
Proof.
  intros Hnn Hrun Hscan.
  rewrite (monitor_step _ _ _ _ _ _ _ Hrun).
  rewrite send_outcome_any_text.
  destruct (decide (new_files = ∅)) as [->|Hne].
  - destruct (snd (Email.send_log_file_with_message b64encode host
                     (files_at (sends s)) (server_at (sends s)) self EmptyString))
      as [[]|e] eqn:Hsend.
    + rewrite (body_no_new_files lib mail_world root_dir time_interval Hnn s Hscan).
      * eexists. split; [reflexivity|]. split; [congruence|]. discriminate.
      * simpl. unfold mail_raises. now rewrite Hsend.
    + rewrite (body_send_raises lib mail_world root_dir time_interval Hnn s e Hscan).
      * eexists. split; [reflexivity|]. split; [congruence|]. reflexivity.
      * simpl. unfold mail_raises. now rewrite Hsend.
  - rewrite (body_new_files lib mail_world root_dir time_interval Hnn s new_files
               Hscan Hne).
    eexists. split; [reflexivity|]. split; [reflexivity|]. congruence.
Qed.

End MonitorWithMailFacts.

Lemma monitor_with_mail_turn_witness :
  exists s',
    monitor Sample.lib
      (with_messenger MailSamples.b64 Sample.home
         (fun k => 100 + 10 * Z.of_nat k) (fun _ => Sample.empty_dir)
         (fun _ => MailSamples.logged_files) (fun _ => MailSamples.bad_password)
         MailSamples.operator)
      1 "/srv" 15 Sample.s_init
    = (s', Raised SMTPException) /\
    last_check_time s' = 100.
Proof.
  destruct (monitor_with_mail_turn MailSamples.b64 Sample.home Sample.lib
              (fun k => 100 + 10 * Z.of_nat k) (fun _ => Sample.empty_dir)
              (fun _ => MailSamples.logged_files)
              (fun _ => MailSamples.bad_password)
              MailSamples.operator "/srv" 15 0 Sample.s_init _ ∅
              ltac:(lia) eq_refl eq_refl)
    as (s' & Hrun & _ & Hkept).
  exists s'. split; [exact Hrun|].
  now apply (Hkept SMTPException).
Defined.

Lemma send_follows_protocol_witness :
  In Email.StartTls
    (fst (Email.send_log_file_with_message MailSamples.b64 Sample.home
            MailSamples.logged_files MailSamples.bad_password
            MailSamples.operator "nothing new")) /\
  Email.starttls_raises MailSamples.bad_password = None.
Proof.
  destruct (send_follows_protocol MailSamples.b64 Sample.home
              MailSamples.logged_files MailSamples.bad_password
              MailSamples.operator "nothing new") as [Hlogin _].
  destruct (Hlogin "sentinel@example.org" "hunter2") as (_ & Htls & _ & _ & Hin).
  - right. right. left. reflexivity.
  - split; [exact Hin|exact Htls].
Defined.

Lemma send_returns_iff_every_step_passes_witness :
  snd (Email.send_log_file_with_message MailSamples.b64 Sample.home
         MailSamples.logged_files MailSamples.willing MailSamples.operator
         "nothing new") = Ok tt.
Proof.
  apply (send_returns_iff_every_step_passes MailSamples.b64 Sample.home
           MailSamples.logged_files MailSamples.willing MailSamples.operator
           "nothing new").
  split; [now exists "started"|]. now repeat split.
Defined.

Lemma send_failures_witness :
  Email.send_log_file_with_message MailSamples.b64 Sample.home
    MailSamples.logged_files MailSamples.unreachable MailSamples.operator
    "nothing new"
  = ([Email.Connect "smtp.gmail.com" 587], Raise OSError) /\
  Email.send_log_file_with_message MailSamples.b64 Sample.home
    ∅ MailSamples.willing MailSamples.operator "nothing new"
  = ([], Raise FileNotFoundError).
Proof.
  split.
  - apply (send_failures MailSamples.b64 Sample.home MailSamples.logged_files
             MailSamples.unreachable MailSamples.operator "nothing new")
      with "started"; reflexivity.
  - apply (send_failures MailSamples.b64 Sample.home ∅ MailSamples.willing
             MailSamples.operator "nothing new"). reflexivity.
Defined.

Lemma main_logs_only_the_parameters_witness :
  ~ In (Logging.FileHandler "/home/u/monitor.txt",
        config_not_found_message "config.json")
      (Logging.emitted (snd (fst (main Sample.lib Sample.home ∅)))).
Proof.
  apply (main_logs_only_the_parameters Sample.lib Sample.home ∅).
Defined.
